(** * BeatChecker: the license manager of [src/licensing.py]

    A shallow embedding of [LicenseManager] and of [_mask_key], and the
    properties of the license client proved on it.

    Conventions of the embedding.
    - A Python [str] is a [string]; its characters are the code points
      below 256.
    - A naive [datetime.datetime] is the record of its seven calendar
      fields, compared and subtracted the way CPython does.
    - [Optional[T]] is [option T]; Python truthiness is written out
      ([None] and the empty string are falsy, objects are truthy).
    - The manager object and the file at [_storage_path] form the state
      that the operations pass along explicitly.  Every reading of the
      clock, every answer of the licensing server and every outcome of a
      file operation is an argument of the operation that consumes it.
    - The Cryptolens SDK ([Helpers], [LicenseKey]) is an interface. *)

From Stdlib Require Import Bool Arith ZArith List String Ascii Lia.
From Stdlib Require Import DecimalString DecimalNat.
Import ListNotations.

Local Open Scope string_scope.
Local Open Scope Z_scope.

(** ** Python strings *)

Module PyStr.

Definition code (c : ascii) : Z := Z.of_nat (nat_of_ascii c).

(** [str.lower] on one code point below 256: the ASCII capitals and the
    Latin-1 capitals (all of U+00C0..U+00DE but the multiplication sign). *)
Definition lower_char (c : ascii) : ascii :=
  let n := code c in
  if ((65 <=? n) && (n <=? 90)) || ((192 <=? n) && (n <=? 222) && negb (n =? 215))
  then ascii_of_nat (nat_of_ascii c + 32)
  else c.

Fixpoint lower (s : string) : string :=
  match s with
  | EmptyString => EmptyString
  | String c t => String (lower_char c) (lower t)
  end.

(** [str.isspace] on one code point below 256. *)
Definition isspace (c : ascii) : bool :=
  let n := code c in
  ((9 <=? n) && (n <=? 13)) || ((28 <=? n) && (n <=? 32))
  || (n =? 133) || (n =? 160).

Fixpoint lstrip (s : string) : string :=
  match s with
  | EmptyString => EmptyString
  | String c t => if isspace c then lstrip t else s
  end.

Fixpoint rstrip (s : string) : string :=
  match s with
  | EmptyString => EmptyString
  | String c t =>
      match rstrip t with
      | EmptyString => if isspace c then EmptyString else String c EmptyString
      | t' => String c t'
      end
  end.

(** [s.strip()] *)
Definition strip (s : string) : string := rstrip (lstrip s).

(** [s.replace(c, "")] for a one-character [c]. *)
Fixpoint remove_char (c : ascii) (s : string) : string :=
  match s with
  | EmptyString => EmptyString
  | String d t => if Ascii.eqb d c then remove_char c t else String d (remove_char c t)
  end.

Definition len (s : string) : Z := Z.of_nat (String.length s).

(** [s[-k:]] for [k > 0]: the last [k] characters, all of [s] when it is
    shorter. *)
Definition last_chars (k : nat) (s : string) : string :=
  substring (String.length s - k) k s.

(** [needle in hay] *)
Fixpoint contains (needle hay : string) : bool :=
  String.prefix needle hay ||
  match hay with
  | EmptyString => false
  | String _ t => contains needle t
  end.

(** Truthiness of a [str]. *)
Definition truthy (s : string) : bool :=
  match s with EmptyString => false | _ => true end.

(** Truthiness of an [Optional[str]]. *)
Definition otruthy (o : option string) : bool :=
  match o with Some s => truthy s | None => false end.

End PyStr.

(** ** [_mask_key] *)

Definition _mask_key (key : option string) : option string :=
  match key with
  | None => None
  | Some k =>
      if negb (PyStr.truthy k) then None
      else
        let stripped := PyStr.remove_char " " (PyStr.remove_char "-" k) in
        if PyStr.len stripped <=? 4 then Some stripped
        else Some ("***" ++ PyStr.last_chars 4 stripped)
  end.


(** ** Naive [datetime.datetime] values *)

Module PyDatetime.

Record datetime : Type := mk
  { year : Z; month : Z; day : Z;
    hour : Z; minute : Z; second : Z; microsecond : Z }.

Definition fields (a : datetime) : list Z :=
  [year a; month a; day a; hour a; minute a; second a; microsecond a].

Fixpoint lex_ltb (xs ys : list Z) : bool :=
  match xs, ys with
  | x :: xs', y :: ys' => (x <? y) || ((x =? y) && lex_ltb xs' ys')
  | _, _ => false
  end.

(** [a < b]: the comparison of the field tuples. *)
Definition ltb (a b : datetime) : bool := lex_ltb (fields a) (fields b).

Definition _is_leap (y : Z) : bool :=
  (y mod 4 =? 0) && (negb (y mod 100 =? 0) || (y mod 400 =? 0)).

Definition _days_before_year (y : Z) : Z :=
  let y := y - 1 in y * 365 + y / 4 - y / 100 + y / 400.

Definition _DAYS_BEFORE_MONTH : list Z :=
  [-1; 0; 31; 59; 90; 120; 151; 181; 212; 243; 273; 304; 334].

Definition _days_before_month (y m : Z) : Z :=
  nth (Z.to_nat m) _DAYS_BEFORE_MONTH 0
  + (if (m >? 2) && _is_leap y then 1 else 0).

Definition _ymd2ord (y m d : Z) : Z :=
  _days_before_year y + _days_before_month y m + d.

Definition toordinal (a : datetime) : Z := _ymd2ord (year a) (month a) (day a).

(** [a - b], a [timedelta], as its whole number of microseconds. *)
Definition sub (a b : datetime) : Z :=
  let days := toordinal a - toordinal b in
  let secs := (second a + minute a * 60 + hour a * 3600)
              - (second b + minute b * 60 + hour b * 3600) in
  (days * 86400 + secs) * 1000000 + (microsecond a - microsecond b).

(** [td.total_seconds() > s] for a whole number [s] of seconds.  The
    float [total_seconds()] is the correctly rounded quotient of the
    microseconds by [10**6], and rounding keeps it on the same side of
    the whole number [s]. *)
Definition total_seconds_gtb (td s : Z) : bool := td >? s * 1000000.

Definition digit (n : Z) : ascii := ascii_of_nat (48 + Z.to_nat (n mod 10)).

(** The [w] low decimal digits of [n]: ["%0wd" % n] for [0 <= n < 10**w]. *)
Fixpoint pad (w : nat) (n : Z) : string :=
  match w with
  | O => EmptyString
  | S w' => pad w' (n / 10) ++ String (digit n) EmptyString
  end.

(** The date as [isoformat()] writes it, ["%04d-%02d-%02d"]. *)
Definition date_string (a : datetime) : string :=
  pad 4 (year a) ++ "-" ++ pad 2 (month a) ++ "-" ++ pad 2 (day a).

(** [%Y] of [strftime], for the years [1 .. 9999] of a [datetime].  The
    C library writes it, and the one of Linux (glibc) writes the year as
    a decimal number without padding: the year 999 is ["999"].  The
    libraries that pad to four digits write the same from the year 1000
    on. *)
Definition strftime_Y (y : Z) : string :=
  if y <? 10 then pad 1 y
  else if y <? 100 then pad 2 y
  else if y <? 1000 then pad 3 y
  else pad 4 y.

(** [a.strftime("%Y-%m-%d")] *)
Definition strftime_Ymd (a : datetime) : string :=
  strftime_Y (year a) ++ "-" ++ pad 2 (month a) ++ "-" ++ pad 2 (day a).

(** [a.isoformat()] *)
Definition isoformat (a : datetime) : string :=
  date_string a ++ "T"
  ++ pad 2 (hour a) ++ ":" ++ pad 2 (minute a) ++ ":" ++ pad 2 (second a)
  ++ (if microsecond a =? 0 then "" else "." ++ pad 6 (microsecond a)).

End PyDatetime.

Definition datetime : Type := PyDatetime.datetime.

(** ** The license record of the SDK, and the configuration *)

Module LicenseKey.

Record Customer : Type := mkCustomer
  { Name : option string; Email : option string }.

(** The attributes of [licensing.models.LicenseKey] that the manager
    reads, and the signed response of the server that the SDK keeps with
    the record. *)
Record t : Type := mk
  { product_id : Z;
    key : string;
    created : option datetime;
    expires : option datetime;
    block : bool;
    customer : option Customer;
    activated_machines : option (list string);
    max_no_of_machines : option Z;
    sign_date : option datetime;
    raw_response : string }.

(** [lic.block = b] *)
Definition set_block (b : bool) (lic : t) : t :=
  mk (product_id lic) (key lic) (created lic) (expires lic) b (customer lic)
     (activated_machines lic) (max_no_of_machines lic) (sign_date lic)
     (raw_response lic).

End LicenseKey.

(** [config.py], the licensing part. *)
Record Config : Type := mkConfig
  { LICENSE_PRODUCT_ID : Z;
    LICENSE_ACCESS_TOKEN : option string;
    LICENSE_RSA_PUBLIC_KEY : option string }.

(** What the manager uses of the Cryptolens SDK on the local machine. *)
Class Cryptolens : Type := mkCryptolens
  { (** [Helpers.IsOnRightMachine(lic, v=2)] *)
    IsOnRightMachine : LicenseKey.t -> bool;
    (** [lic.save_as_string()] *)
    save_as_string : LicenseKey.t -> string;
    (** [LicenseKey.load_from_string(rsa, data, days)], which reads the
        clock; [None] when it raises. *)
    load_from_string : string -> string -> Z -> datetime -> option (option LicenseKey.t) }.

(** What [Key.activate(token, rsa_pub_key, product_id, key, machine_code)]
    answers: a license or none, and a message or none. *)
Definition Answer : Type := option LicenseKey.t * option string.
Definition Authority : Type := string -> string -> Z -> string -> string -> Answer.

(** ** The manager, its file, and the monad of its methods *)

Record LicenseManager : Type := mkManager
  { _machine_code : string;
    _license : option LicenseKey.t;
    _license_string : option string;
    _last_refresh : option datetime;
    (** the content of the file at [_storage_path], [None] when there is none *)
    storage_file : option string }.

(** [LicenseError], the one exception class of the module, and the
    exceptions of the file system and of the SDK, which the manager
    catches where it calls them inside a [try]. *)
Inductive exn : Type :=
| LicenseError (msg : string)
| OtherException.

Inductive result (A : Type) : Type :=
| Returned (a : A)
| Raised (e : exn).
Arguments Returned {A} a.
Arguments Raised {A} e.

(** A method: it returns or raises, and leaves a manager state either way. *)
Definition M (A : Type) : Type := LicenseManager -> result A * LicenseManager.

Definition ret {A} (a : A) : M A := fun s => (Returned a, s).
Definition raise {A} (e : exn) : M A := fun s => (Raised e, s).
Definition bind {A B} (c : M A) (k : A -> M B) : M B :=
  fun s => match c s with
           | (Returned a, s') => k a s'
           | (Raised e, s') => (Raised e, s')
           end.
Definition get : M LicenseManager := fun s => (Returned s, s).
Definition modify (f : LicenseManager -> LicenseManager) : M unit :=
  fun s => (Returned tt, f s).

Notation "x <- c ;; k" := (bind c (fun x => k))
  (at level 61, c at next level, right associativity).
Notation "c ;; k" := (bind c (fun _ => k))
  (at level 61, right associativity).

(** [if b: raise e] *)
Definition raise_if (b : bool) (e : exn) : M unit :=
  if b then raise e else ret tt.

(** [try: c except Exception: h] *)
Definition try_except {A} (c h : M A) : M A :=
  fun s => match c s with
           | (Returned a, s') => (Returned a, s')
           | (Raised _, s') => h s'
           end.

(** The outcome of opening the file for writing and writing it: done, or
    failed and the file left as [remains]. *)
Inductive write_outcome : Type :=
| Written
| WriteFailed (remains : option string).

(** What a call that no [try] covers gives: its value, or an exception,
    which leaves the method that made the call. *)
Inductive external (A : Type) : Type :=
| Answers (a : A)
| Raises.
Arguments Answers {A} a.
Arguments Raises {A}.

(** What the file system gives [deactivate()] at l.250-255: the test
    [self._storage_path.exists()], which is outside the [try], raises an
    error that it does not absorb (a [PermissionError], say); or it
    answers, and [unlink()] of a file that is there succeeds or not. *)
Inductive removal : Type :=
| ExistsRaises
| ExistsAnswers (unlinked : bool).

Definition set_license (l : option LicenseKey.t) (s : LicenseManager) : LicenseManager :=
  mkManager (_machine_code s) l (_license_string s) (_last_refresh s) (storage_file s).
Definition set_license_string (k : option string) (s : LicenseManager) : LicenseManager :=
  mkManager (_machine_code s) (_license s) k (_last_refresh s) (storage_file s).
Definition set_last_refresh (t : option datetime) (s : LicenseManager) : LicenseManager :=
  mkManager (_machine_code s) (_license s) (_license_string s) t (storage_file s).
Definition set_storage_file (f : option string) (s : LicenseManager) : LicenseManager :=
  mkManager (_machine_code s) (_license s) (_license_string s) (_last_refresh s) f.

(** The dictionary that [status()] returns. *)
Module Status.
Record t : Type := mk
  { product_id : Z;
    active : bool;
    license_key : option string;
    expires_at : option string;
    customer_name : option string;
    customer_email : option string;
    max_machines : option Z;
    allowed_machines : option Z;
    activated_machines : Z;
    activated_at : option string;
    last_validated_at : option string;
    blocked : bool;
    message : option string }.
End Status.

(** ** The methods of [LicenseManager] *)

Section Manager.

Context (config : Config) {sdk : Cryptolens}.

Definition rsa_key_missing : string :=
  "RSA public key not configured. Please set LICENSE_RSA_PUBLIC_KEY in config.py or "
  ++ "BEATCHECKER_LICENSE_RSA_KEY environment variable. Get your key from "
  ++ "https://app.cryptolens.io/User/Security".

Definition get_rsa_key : M string :=
  match LICENSE_RSA_PUBLIC_KEY config with
  | Some k => if PyStr.truthy k then ret k else raise (LicenseError rsa_key_missing)
  | None => raise (LicenseError rsa_key_missing)
  end.

(** The clock is read when the record has an expiry. *)
Definition expired (now : datetime) (lic : LicenseKey.t) : bool :=
  match LicenseKey.expires lic with
  | Some e => PyDatetime.ltb e now
  | None => false
  end.

Definition _is_active_unlocked (now : datetime) (self : LicenseManager) : bool :=
  match _license self with
  | None => false
  | Some lic =>
      if LicenseKey.block lic then false
      else if expired now lic then false
      else IsOnRightMachine lic
  end.

Definition _inactive_reason_unlocked (now : datetime) (self : LicenseManager) : string :=
  match _license self with
  | None => "BeatChecker is not activated. Please enter a license key."
  | Some lic =>
      if LicenseKey.block lic
      then "Your license has been blocked. Please contact support."
      else
        let otherwise :=
          if negb (IsOnRightMachine lic)
          then "This license is not activated on this machine."
          else "BeatChecker is not activated." in
        match LicenseKey.expires lic with
        | Some e =>
            if PyDatetime.ltb e now
            then "Your license expired on " ++ PyDatetime.strftime_Ymd e ++ "."
            else otherwise
        | None => otherwise
        end
  end.

Definition is_active (now : datetime) : M bool :=
  self <- get ;; ret (_is_active_unlocked now self).

Definition inactive_reason (now : datetime) : M string :=
  self <- get ;; ret (_inactive_reason_unlocked now self).

Definition _should_refresh (now : datetime) (self : LicenseManager) : bool :=
  if negb (PyStr.otruthy (_license_string self)) then false
  else if match _license self with
          | Some lic => LicenseKey.block lic
          | None => false
          end
       then false
       else
         match _last_refresh self with
         | None => true
         | Some last =>
             let time_since_refresh := PyDatetime.sub now last in
             PyDatetime.total_seconds_gtb time_since_refresh 3600
         end.

(** The snapshot that [status()] builds under its second lock; the clock
    is read for [active] and again for [message]. *)
Definition status_dict (now_active now_reason : datetime) (self : LicenseManager)
  : Status.t :=
  let active := _is_active_unlocked now_active self in
  let lic := _license self in
  Status.mk
    (match lic with Some l => LicenseKey.product_id l | None => LICENSE_PRODUCT_ID config end)
    active
    (match lic with Some l => _mask_key (Some (LicenseKey.key l)) | None => None end)
    (match lic with
     | Some l => option_map PyDatetime.isoformat (LicenseKey.expires l)
     | None => None
     end)
    (match lic with
     | Some l => match LicenseKey.customer l with
                 | Some c => LicenseKey.Name c
                 | None => None
                 end
     | None => None
     end)
    (match lic with
     | Some l => match LicenseKey.customer l with
                 | Some c => LicenseKey.Email c
                 | None => None
                 end
     | None => None
     end)
    (match lic with Some l => LicenseKey.max_no_of_machines l | None => None end)
    None
    (match lic with
     | Some l => match LicenseKey.activated_machines l with
                 | Some ms => Z.of_nat (List.length ms)
                 | None => 0
                 end
     | None => 0
     end)
    (match lic with
     | Some l => option_map PyDatetime.isoformat (LicenseKey.created l)
     | None => None
     end)
    (match lic with
     | Some l => option_map PyDatetime.isoformat (LicenseKey.sign_date l)
     | None => None
     end)
    (match lic with Some l => LicenseKey.block l | None => false end)
    (if active then None else Some (_inactive_reason_unlocked now_reason self)).

(** [status()]: whether it started the background thread that calls
    [refresh()], and the dictionary.  The thread is a [refresh] of its
    own in the sequence of operations. *)
Definition status (now_policy now_active now_reason : datetime)
  : M (bool * Status.t) :=
  self <- get ;;
  let should_refresh := _should_refresh now_policy self in
  self <- get ;;
  ret (should_refresh, status_dict now_active now_reason self).

(** [fh.write(text)] on the file opened with mode ["w"]. *)
Definition write_file (w : write_outcome) (text : string) : M unit :=
  match w with
  | Written => modify (set_storage_file (Some text))
  | WriteFailed remains => modify (set_storage_file remains) ;; raise OtherException
  end.

Definition _save_state (w : write_outcome) : M unit :=
  self <- get ;;
  match _license self with
  | None => ret tt
  | Some lic => try_except (write_file w (save_as_string lic)) (ret tt)
  end.

Definition access_token : string :=
  match LICENSE_ACCESS_TOKEN config with Some t => t | None => "" end.

(** [result[1] if result[1] else default] *)
Definition message_or (default : string) (result : Answer) : string :=
  match snd result with
  | Some m => if PyStr.truthy m then m else default
  | None => default
  end.

Definition activate (license_key : option string) (Key_activate : Authority)
    (now_expiry now_commit : datetime) (w : write_outcome) : M unit :=
  let key := PyStr.strip (match license_key with Some k => k | None => "" end) in
  raise_if (negb (PyStr.truthy key)) (LicenseError "A license key is required.") ;;
  raise_if (negb (PyStr.otruthy (LICENSE_ACCESS_TOKEN config)))
    (LicenseError "Licensing is not configured. Missing access token.") ;;
  rsa <- get_rsa_key ;;
  self <- get ;;
  let result :=
    Key_activate access_token rsa (LICENSE_PRODUCT_ID config) key (_machine_code self) in
  match fst result with
  | None => raise (LicenseError (message_or "License activation failed." result))
  | Some lic =>
      raise_if (negb (IsOnRightMachine lic))
        (LicenseError "This license cannot be activated on this machine.") ;;
      match LicenseKey.expires lic with
      | Some expires_at =>
          raise_if (PyDatetime.ltb expires_at now_expiry)
            (LicenseError ("This license expired on "
                           ++ PyDatetime.strftime_Ymd expires_at
                           ++ " and cannot be activated."))
      | None => ret tt
      end ;;
      modify (set_license (Some lic)) ;;
      modify (set_license_string (Some (LicenseKey.key lic))) ;;
      modify (set_last_refresh (Some now_commit)) ;;
      _save_state w
  end.

Definition refresh (Key_activate : Authority) (now_commit : datetime)
    (w : write_outcome) : M unit :=
  self <- get ;;
  raise_if (negb (PyStr.otruthy (_license_string self)))
    (LicenseError "No license has been activated.") ;;
  let current_key := match _license_string self with Some k => k | None => "" end in
  let existing_license := _license self in
  raise_if (negb (PyStr.otruthy (LICENSE_ACCESS_TOKEN config)))
    (LicenseError "Licensing is not configured. Missing access token.") ;;
  rsa <- get_rsa_key ;;
  let result :=
    Key_activate access_token rsa (LICENSE_PRODUCT_ID config) current_key
      (_machine_code self) in
  match fst result with
  | None =>
      let error_msg := message_or "License refresh failed." result in
      if PyStr.contains "blocked" (PyStr.lower error_msg)
      then match existing_license with
           | Some existing =>
               modify (set_license (Some (LicenseKey.set_block true existing))) ;;
               modify (set_last_refresh (Some now_commit)) ;;
               _save_state w
           | None => raise (LicenseError error_msg)
           end
      else raise (LicenseError error_msg)
  | Some lic =>
      modify (set_license (Some lic)) ;;
      modify (set_last_refresh (Some now_commit)) ;;
      _save_state w
  end.

(** [refresh()] takes the lock twice.  Its first section (l.191-195)
    reads the key string and the record; the lock is released while the
    server is asked, and taken again to commit (l.215-220, l.227-230)
    without reading the key string again.  A call of another thread can
    run in between: [status()] starts its refresh on a thread of its own
    (l.112-121) and the service runs the methods on worker threads.
    [refresh_snapshot] is the first section, [refresh_commit] what follows
    it, given the snapshot. *)
Definition refresh_snapshot : M (string * option LicenseKey.t) :=
  self <- get ;;
  raise_if (negb (PyStr.otruthy (_license_string self)))
    (LicenseError "No license has been activated.") ;;
  let current_key := match _license_string self with Some k => k | None => "" end in
  let existing_license := _license self in
  ret (current_key, existing_license).

Definition refresh_commit (snapshot : string * option LicenseKey.t)
    (Key_activate : Authority) (now_commit : datetime) (w : write_outcome) : M unit :=
  let current_key := fst snapshot in
  let existing_license := snd snapshot in
  raise_if (negb (PyStr.otruthy (LICENSE_ACCESS_TOKEN config)))
    (LicenseError "Licensing is not configured. Missing access token.") ;;
  rsa <- get_rsa_key ;;
  self <- get ;;
  let result :=
    Key_activate access_token rsa (LICENSE_PRODUCT_ID config) current_key
      (_machine_code self) in
  match fst result with
  | None =>
      let error_msg := message_or "License refresh failed." result in
      if PyStr.contains "blocked" (PyStr.lower error_msg)
      then match existing_license with
           | Some existing =>
               modify (set_license (Some (LicenseKey.set_block true existing))) ;;
               modify (set_last_refresh (Some now_commit)) ;;
               _save_state w
           | None => raise (LicenseError error_msg)
           end
      else raise (LicenseError error_msg)
  | Some lic =>
      modify (set_license (Some lic)) ;;
      modify (set_last_refresh (Some now_commit)) ;;
      _save_state w
  end.

(** [unlinked]: whether [unlink()] of the existing file succeeds, once
    [exists()] (l.250) has answered. *)
Definition deactivate (unlinked : bool) : M unit :=
  self <- get ;;
  raise_if (negb (PyStr.otruthy (_license_string self)))
    (LicenseError "No license has been activated.") ;;
  modify (set_license None) ;;
  modify (set_license_string None) ;;
  modify (set_last_refresh None) ;;
  self <- get ;;
  match storage_file self with
  | Some _ => if unlinked then modify (set_storage_file None) else ret tt
  | None => ret tt
  end.

(** [deactivate()] with every outcome of the file system: the state is
    cleared (l.245-247) before the file is looked at (l.250). *)
Definition deactivate_fs (r : removal) : M unit :=
  self <- get ;;
  raise_if (negb (PyStr.otruthy (_license_string self)))
    (LicenseError "No license has been activated.") ;;
  modify (set_license None) ;;
  modify (set_license_string None) ;;
  modify (set_last_refresh None) ;;
  match r with
  | ExistsRaises => raise OtherException
  | ExistsAnswers unlinked =>
      self <- get ;;
      match storage_file self with
      | Some _ => if unlinked then modify (set_storage_file None) else ret tt
      | None => ret tt
      end
  end.

(** [readable]: whether opening and reading the file succeeds;
    [now]: the clock as [load_from_string] reads it. *)
Definition _load_state (readable : bool) (now : datetime) : M unit :=
  self <- get ;;
  match storage_file self with
  | None => ret tt
  | Some license_data =>
      try_except
        (raise_if (negb readable) OtherException ;;
         if PyStr.truthy (PyStr.strip license_data)
         then
           rsa <- get_rsa_key ;;
           match load_from_string rsa license_data 30 now with
           | None => raise OtherException
           | Some loaded =>
               modify (set_license loaded) ;;
               match loaded with
               | Some lic => modify (set_license_string (Some (LicenseKey.key lic)))
               | None => ret tt
               end
           end
         else ret tt)
        (modify (set_license None) ;; modify (set_license_string None))
  end.

(** [LicenseManager(storage_path)], once its calls outside a [try] have
    answered: [machine_code] is what [Helpers.GetMachineCode(v=2)] returns
    and [file] the content of the file at the storage path, [None] when
    [exists()] says that there is none. *)
Definition __init__ (machine_code : string) (file : option string)
    (readable : bool) (now : datetime) : LicenseManager :=
  snd (_load_state readable now (mkManager machine_code None None None file)).

(** The constructor with the three calls that no [try] covers:
    [ensure_directory(self._storage_path.parent)] (l.60, a [mkdir]),
    [Helpers.GetMachineCode(v=2)] (l.61) and [self._storage_path.exists()]
    (l.258, the first statement of [_load_state]).  What one of them
    raises leaves the constructor, and no manager is built.  [exists_]
    answers with the content of the file, [None] when there is no file. *)
Definition construct (mkdir : external unit) (GetMachineCode : external string)
    (exists_ : external (option string)) (readable : bool) (now : datetime)
  : result LicenseManager :=
  match mkdir, GetMachineCode, exists_ with
  | Answers _, Answers machine_code, Answers file =>
      Returned (__init__ machine_code file readable now)
  | _, _, _ => Raised OtherException
  end.

End Manager.

(** ** Sequences of operations on one manager *)

(** A call of a public method, with what the clock, the licensing server
    and the file system give it. *)
Inductive op : Type :=
| Activate (license_key : option string) (Key_activate : Authority)
    (now_expiry now_commit : datetime) (w : write_outcome)
| Refresh (Key_activate : Authority) (now_commit : datetime) (w : write_outcome)
| Deactivate (unlinked : bool)
| GetStatus (now_policy now_active now_reason : datetime)
| IsActive (now : datetime)
| InactiveReason (now : datetime).

Definition outcome {A} (r : result A) : result unit :=
  match r with Returned _ => Returned tt | Raised e => Raised e end.

Section Runs.

Context (config : Config) {sdk : Cryptolens}.

Definition call (o : op) : M unit :=
  fun self =>
    match o with
    | Activate k a n1 n2 w => activate config k a n1 n2 w self
    | Refresh a n w => refresh config a n w self
    | Deactivate u => deactivate u self
    | GetStatus n1 n2 n3 =>
        let '(r, s) := status config n1 n2 n3 self in (outcome r, s)
    | IsActive n => let '(r, s) := is_active n self in (outcome r, s)
    | InactiveReason n => let '(r, s) := inactive_reason n self in (outcome r, s)
    end.

(** The manager after the call, whether it returned or raised. *)
Definition exec (o : op) (self : LicenseManager) : LicenseManager :=
  snd (call o self).

Definition run (ops : list op) (self : LicenseManager) : LicenseManager :=
  fold_left (fun s o => exec o s) ops self.

End Runs.

(** The [block] attribute of the cached record, when there is one. *)
Definition blocked_flag (self : LicenseManager) : option bool :=
  option_map LicenseKey.block (_license self).

(** The operations that do not write: the three queries. *)
Definition is_read (o : op) : bool :=
  match o with
  | GetStatus _ _ _ | IsActive _ | InactiveReason _ => true
  | _ => false
  end.

(** The server answered some call of [o] with the record [lic]. *)
Definition answered_with (o : op) (lic : LicenseKey.t) : Prop :=
  match o with
  | Activate _ a _ _ _ | Refresh a _ _ =>
      exists token rsa pid k mc msg, a token rsa pid k mc = (Some lic, msg)
  | _ => False
  end.

(** The reading of the clock with which a call stamps its commit. *)
Definition commit_time (o : op) : option datetime :=
  match o with
  | Activate _ _ _ now_commit _ | Refresh _ now_commit _ => Some now_commit
  | _ => None
  end.

(** All of a record but its [block] flag. *)
Definition other_attributes (lic : LicenseKey.t) :=
  (LicenseKey.product_id lic, LicenseKey.key lic, LicenseKey.created lic,
   LicenseKey.expires lic, LicenseKey.customer lic,
   LicenseKey.activated_machines lic, LicenseKey.max_no_of_machines lic,
   LicenseKey.sign_date lic, LicenseKey.raw_response lic).

(** A record object is cached exactly when a key string is. *)
Definition record_iff_key (self : LicenseManager) : Prop :=
  _license self = None <-> _license_string self = None.

(** [s] has a substring that reads [word] when letter case is ignored. *)
Definition mentions (word s : string) : Prop :=
  exists pre mid post,
    s = pre ++ mid ++ post /\ PyStr.lower mid = PyStr.lower word.

(** [needle] occurs in [s]. *)
Definition occurs (needle s : string) : Prop :=
  exists pre post, s = pre ++ needle ++ post.

(** [s] without its hyphens and its spaces. *)
Fixpoint without_hyphens_spaces (s : string) : string :=
  match s with
  | EmptyString => EmptyString
  | String c t =>
      if (Ascii.eqb c "-" || Ascii.eqb c " ")%bool
      then without_hyphens_spaces t
      else String c (without_hyphens_spaces t)
  end.

(** The number that the decimal numeral [s] writes, after the digits
    that gave [acc]. *)
Fixpoint decimal_from (acc : Z) (s : string) : Z :=
  match s with
  | EmptyString => acc
  | String c t => decimal_from (acc * 10 + (PyStr.code c - 48)) t
  end.

Definition decimal (s : string) : Z := decimal_from 0 s.

(** The file after [_save_state] wrote [text]. *)
Definition file_after (w : write_outcome) (text : string) : option string :=
  match w with Written => Some text | WriteFailed remains => remains end.

(** The manager once [activate()] has committed the record [lic]. *)
Definition committed {sdk : Cryptolens} (lic : LicenseKey.t) (now : datetime)
    (w : write_outcome) (self : LicenseManager) : LicenseManager :=
  mkManager (_machine_code self) (Some lic) (Some (LicenseKey.key lic)) (Some now)
    (file_after w (save_as_string lic)).

(** The manager once [refresh()] has committed the record [lic]: the
    returned one, or the cached one with its [block] flag set. *)
Definition refreshed {sdk : Cryptolens} (lic : LicenseKey.t) (now : datetime)
    (w : write_outcome) (self : LicenseManager) : LicenseManager :=
  mkManager (_machine_code self) (Some lic) (_license_string self) (Some now)
    (file_after w (save_as_string lic)).

(** The key that [refresh()] sends. *)
Definition current_key (self : LicenseManager) : string :=
  match _license_string self with Some k => k | None => "" end.

(** The message of an answer, empty when there is none. *)
Definition message_of (result : Answer) : string :=
  match snd result with Some m => m | None => "" end.

(** The RSA key that the calls of the server are given. *)
Definition rsa_key (config : Config) : string :=
  match LICENSE_RSA_PUBLIC_KEY config with Some k => k | None => "" end.

(** The key that [activate(license_key)] sends: the argument, trimmed. *)
Definition sent_key (license_key : option string) : string :=
  PyStr.strip (match license_key with Some k => k | None => "" end).

(** The answer of the server to the call of [activate(license_key)]. *)
Definition activate_answer (config : Config) (Key_activate : Authority)
    (license_key : option string) (self : LicenseManager) : Answer :=
  Key_activate (access_token config) (rsa_key config) (LICENSE_PRODUCT_ID config)
    (sent_key license_key) (_machine_code self).

(** The answer of the server to the call of [refresh()]. *)
Definition refresh_answer (config : Config) (Key_activate : Authority)
    (self : LicenseManager) : Answer :=
  Key_activate (access_token config) (rsa_key config) (LICENSE_PRODUCT_ID config)
    (current_key self) (_machine_code self).

(** The messages of [LicenseError] that tell the cases of the methods. *)
Definition msg_unactivated : string :=
  "BeatChecker is not activated. Please enter a license key.".
Definition msg_blocked : string :=
  "Your license has been blocked. Please contact support.".
Definition msg_wrong_machine : string :=
  "This license is not activated on this machine.".
Definition msg_not_activated : string := "No license has been activated.".
Definition msg_refresh_failed : string := "License refresh failed.".
Definition msg_generic : string := "BeatChecker is not activated.".
Definition msg_key_required : string := "A license key is required.".
Definition msg_no_token : string := "Licensing is not configured. Missing access token.".
Definition msg_not_this_machine : string :=
  "This license cannot be activated on this machine.".
Definition msg_expired_on (e : datetime) : string :=
  "This license expired on " ++ PyDatetime.strftime_Ymd e ++ " and cannot be activated.".

(** The position of a [datetime] on the line of microseconds. *)
Definition microseconds_of (a : datetime) : Z :=
  (PyDatetime.toordinal a * 86400
   + (PyDatetime.second a + PyDatetime.minute a * 60 + PyDatetime.hour a * 3600))
  * 1000000 + PyDatetime.microsecond a.

(** ** A configuration, an SDK and a server to run the manager on *)

Module Sample.

Definition config : Config := mkConfig 31405 (Some "token") (Some "<RSAKeyValue/>").

(** The machine check of the SDK: the local machine code is among the
    activated machines of the record. *)
Definition sdk : Cryptolens :=
  mkCryptolens
    (fun lic =>
       match LicenseKey.activated_machines lic with
       | Some ms => existsb (String.eqb "machine-1") ms
       | None => false
       end)
    (fun lic => LicenseKey.key lic ++ (if LicenseKey.block lic then ":blocked" else ":ok"))
    (fun _ _ _ _ => Some None).

Definition noon : datetime := PyDatetime.mk 2024 5 1 12 0 0 0.
Definition later : datetime := PyDatetime.mk 2024 5 1 13 0 0 1.
Definition signed : datetime := PyDatetime.mk 2024 5 1 11 59 58 0.
Definition end_of_2023 : datetime := PyDatetime.mk 2023 12 31 0 0 0 0.
Definition start_of_2025 : datetime := PyDatetime.mk 2025 1 1 0 0 0 0.

Definition record (k : string) (expires : option datetime) (block : bool)
  : LicenseKey.t :=
  LicenseKey.mk 31405 k (Some noon) expires block
    (Some (LicenseKey.mkCustomer (Some "Ann") (Some "ann@example.org")))
    (Some ["machine-1"]) (Some 3) (Some signed) "signed response".

Definition valid : LicenseKey.t := record "ABCD-1234-EFGH-5678" (Some start_of_2025) false.
Definition blocked_expired : LicenseKey.t := record "ABCD-1234-EFGH-5678" (Some end_of_2023) true.
Definition keyless : LicenseKey.t := record "" None false.

Definition elsewhere : LicenseKey.t :=
  LicenseKey.mk 31405 "ABCD-1234-EFGH-5678" (Some noon) None false None
    (Some ["machine-2"]) (Some 3) (Some signed) "signed response".
Definition lapsed : LicenseKey.t := record "ABCD-1234-EFGH-5678" (Some end_of_2023) false.

(** A record whose term ended in the year 999. *)
Definition year_999 : datetime := PyDatetime.mk 999 1 2 0 0 0 0.
Definition lapsed_in_999 : LicenseKey.t := record "ABCD-1234-EFGH-5678" (Some year_999) false.

Definition answers (a : Answer) : Authority := fun _ _ _ _ _ => a.

Definition fresh : LicenseManager := __init__ config (sdk := sdk) "machine-1" None true noon.

Definition holding (lic : LicenseKey.t) : LicenseManager :=
  mkManager "machine-1" (Some lic) (Some (LicenseKey.key lic)) (Some noon)
    (Some (save_as_string (Cryptolens := sdk) lic)).

Definition activated : LicenseManager :=
  snd (activate config (sdk := sdk) (Some " ABCD-1234-EFGH-5678 ")
         (answers (Some valid, None)) noon noon Written fresh).

(** A manager whose server answered with a record that has no key. *)
Definition keyless_activated : LicenseManager :=
  snd (activate config (sdk := sdk) (Some "KEY")
         (answers (Some keyless, None)) noon noon Written fresh).

(** An SDK that decodes what it has saved: it saves the signed response
    of the record and decodes that of [valid]. *)
Definition storing_sdk : Cryptolens :=
  mkCryptolens (IsOnRightMachine (Cryptolens := sdk)) LicenseKey.raw_response
    (fun _ data _ _ =>
       if String.eqb data (LicenseKey.raw_response valid)
       then Some (Some valid) else Some None).

(** The server has blocked the key since, and its term has ended. *)
Definition revoked : LicenseManager :=
  snd (refresh config (sdk := sdk) (answers (Some blocked_expired, None))
         later Written activated).

End Sample.

(** * The helpers and the callers of the manager *)

(** ** [download.py]: a name that is free, the paths without repeats, the
    path that the downloader reports *)

Module Download.

(** [str(index)] *)
Definition str_of_nat (n : nat) : string :=
  NilEmpty.string_of_uint (Nat.to_uint n).

(** The name [f"{stem}_{index}{suffix}"]. *)
Definition numbered (stem suffix : string) (index : nat) : string :=
  stem ++ "_" ++ str_of_nat index ++ suffix.

(** The loop of [_make_unique_path], for at most [fuel] tests of
    [candidate.exists()].  The candidates are in one directory and are
    given by their names; [exists_ name] is [(directory / name).exists()]. *)
Fixpoint unique_loop (exists_ : string -> bool) (stem suffix : string)
    (fuel : nat) (candidate : string) (index : nat) : option string :=
  match fuel with
  | O => None
  | S fuel' =>
      if exists_ candidate
      then unique_loop exists_ stem suffix fuel' (numbered stem suffix index) (S index)
      else Some candidate
  end.

Definition _make_unique_path (exists_ : string -> bool) (stem suffix : string)
    (fuel : nat) : option string :=
  unique_loop exists_ stem suffix fuel (stem ++ suffix) 1.

(** The loop of [_unique_paths]: [seen] holds the keys met so far. *)
Fixpoint unique_from (seen : list string) (paths : list (option string))
  : list string :=
  match paths with
  | [] => []
  | None :: rest => unique_from seen rest
  | Some path :: rest =>
      if existsb (String.eqb path) seen
      then unique_from seen rest
      else path :: unique_from (path :: seen) rest
  end.

Definition _unique_paths (paths : list (option string)) : list string :=
  unique_from [] paths.

(** What [extract_info] of yt-dlp returns, as [_extract_download_filepath]
    looks at it: a dictionary with its entries ["requested_downloads"],
    ["_filename"] and ["entries"], a list, or something else.  An entry
    of ["requested_downloads"] is given by its ["filepath"], [None] when
    it is not a dictionary or has none; a field is [None] when the key is
    missing or the value has another type. *)
#[warnings="-register-all"]
Inductive info : Type :=
| Dict (requested_downloads : option (list (option string)))
       (_filename : option string) (entries : option (list info))
| InfoList (items : list info)
| Other.

(** [for entry in requested_downloads: if filepath: return filepath] *)
Fixpoint first_filepath (downloads : list (option string)) : option string :=
  match downloads with
  | [] => None
  | entry :: rest =>
      if PyStr.otruthy entry then entry else first_filepath rest
  end.

Fixpoint _extract_download_filepath (i : info) : option string :=
  let nested :=
    fix nested (items : list info) : option string :=
      match items with
      | [] => None
      | entry :: rest =>
          match _extract_download_filepath entry with
          | Some path => Some path
          | None => nested rest
          end
      end in
  match i with
  | Dict requested_downloads filename entries =>
      match match requested_downloads with
            | Some downloads => first_filepath downloads
            | None => None
            end with
      | Some path => Some path
      | None =>
          if PyStr.otruthy filename then filename
          else match entries with
               | Some items => nested items
               | None => None
               end
      end
  | InfoList items => nested items
  | Other => None
  end.

(** The paths of a list of optional paths that are not empty. *)
Definition truthy_paths (l : list (option string)) : list string :=
  flat_map (fun e => match e with
                     | Some p => if PyStr.truthy p then [p] else []
                     | None => []
                     end) l.

(** Every file path that the information holds, in the order in which
    [_extract_download_filepath] looks for them: those of the requested
    downloads, the file name, and those of the entries, one entry after
    the other. *)
Fixpoint reported_paths (i : info) : list string :=
  let all :=
    fix all (items : list info) : list string :=
      match items with
      | [] => []
      | entry :: rest => (reported_paths entry ++ all rest)%list
      end in
  match i with
  | Dict requested_downloads filename entries =>
      (truthy_paths (match requested_downloads with Some d => d | None => [] end)
       ++ truthy_paths [filename]
       ++ match entries with Some items => all items | None => [] end)%list
  | InfoList items => all items
  | Other => []
  end.

End Download.

(** ** [utils.py]: [sanitize_filename] *)

Module Utils.

(** [\w] of [re] on a [str], for a code point below 256: the letters, the
    digits and the numeric characters, and the underscore. *)
Definition is_word (c : ascii) : bool :=
  let n := PyStr.code c in
  ((48 <=? n) && (n <=? 57)) || ((65 <=? n) && (n <=? 90)) || (n =? 95)
  || ((97 <=? n) && (n <=? 122))
  || (n =? 170) || (n =? 178) || (n =? 179) || (n =? 181) || (n =? 185)
  || (n =? 186) || ((188 <=? n) && (n <=? 190))
  || ((192 <=? n) && (n <=? 214)) || ((216 <=? n) && (n <=? 246))
  || ((248 <=? n) && (n <=? 255)).

(** The characters that [INVALID_FILENAME_PATTERN], [[^\w\-\. ]], keeps. *)
Definition is_valid (c : ascii) : bool :=
  is_word c || Ascii.eqb c "-" || Ascii.eqb c "." || Ascii.eqb c " ".

(** [INVALID_FILENAME_PATTERN.sub("", s)] *)
Fixpoint remove_invalid (s : string) : string :=
  match s with
  | EmptyString => EmptyString
  | String c t =>
      if is_valid c then String c (remove_invalid t) else remove_invalid t
  end.

(** [CONSECUTIVE_DOTS_PATTERN.sub(".", s)]: every run of dots becomes one
    dot; [after_dot] tells that the character before was a dot. *)
Fixpoint collapse_dots (after_dot : bool) (s : string) : string :=
  match s with
  | EmptyString => EmptyString
  | String c t =>
      if Ascii.eqb c "."
      then if after_dot then collapse_dots true t
           else String c (collapse_dots true t)
      else String c (collapse_dots false t)
  end.

(** [WHITESPACE_PATTERN.sub(" ", s)]: every run of white space becomes one
    space; [in_run] tells that the character before was white space. *)
Fixpoint collapse_whitespace (in_run : bool) (s : string) : string :=
  match s with
  | EmptyString => EmptyString
  | String c t =>
      if PyStr.isspace c
      then if in_run then collapse_whitespace true t
           else String " " (collapse_whitespace true t)
      else String c (collapse_whitespace false t)
  end.

(** [sanitize_filename(name, default)]; [normalize] is
    [unicodedata.normalize("NFKD", _)], of the Unicode database. *)
Definition sanitize_filename (normalize : string -> string)
    (name default : string) : string :=
  if negb (PyStr.truthy name) then default
  else
    let normalized := normalize name in
    let without_invalid := remove_invalid normalized in
    let without_dots := collapse_dots false without_invalid in
    let collapsed := PyStr.strip (collapse_whitespace false without_dots) in
    if PyStr.truthy collapsed then collapsed else default.

(** Every character of [s] satisfies [p]. *)
Fixpoint all_chars (p : ascii -> bool) (s : string) : bool :=
  match s with
  | EmptyString => true
  | String c t => p c && all_chars p t
  end.

(** [s] begins with the character [x]. *)
Definition starts_with (x : ascii) (s : string) : bool :=
  match s with
  | EmptyString => false
  | String c _ => Ascii.eqb c x
  end.

(** No two characters of [s] that follow each other are both [x]. *)
Fixpoint no_adjacent (x : ascii) (s : string) : bool :=
  match s with
  | EmptyString => true
  | String c t => negb (Ascii.eqb c x && starts_with x t) && no_adjacent x t
  end.

End Utils.

(** ** [app.py]: [_resolve_color] *)

Module App.

(** A colour of the toolkit: a string, or a tuple of strings. *)
Inductive color_value : Type :=
| Single (value : string)
| Tuple (items : list string).

Definition usable (item : string) : bool :=
  PyStr.truthy item && negb (String.eqb item "transparent").

Definition _resolve_color (value : color_value) : string :=
  match value with
  | Tuple items =>
      match find usable (rev items) with
      | Some item => item
      | None => "#1a1a1a"
      end
  | Single v =>
      if String.eqb v "transparent" || negb (PyStr.truthy v) then "#1a1a1a" else v
  end.

End App.

(** ** [service.py]: the endpoints that use the manager *)

Module Service.

(** What an endpoint gives: a response, or an [HTTPException]. *)
Inductive http (A : Type) : Type :=
| Responded (body : A)
| HTTPException (status_code : Z) (detail : string).
Arguments Responded {A} body.
Arguments HTTPException {A} status_code detail.

(** An endpoint on the manager of the service. *)
Definition endpoint (A : Type) : Type := LicenseManager -> http A * LicenseManager.

Record HealthResponse : Type := mkHealth
  { health_status : string; license_active : bool; message : option string }.

Section Endpoints.

Context (config : Config) {sdk : Cryptolens}.

(** [health_check()]: the clock is read by [is_active()] and again by
    [inactive_reason()]. *)
Definition health_check (now_active now_reason : datetime) : M HealthResponse :=
  active <- is_active now_active ;;
  message <- (if active then ret None
              else reason <- inactive_reason now_reason ;; ret (Some reason)) ;;
  ret (mkHealth "ok" active message).

(** [try: c  except LicenseError as exc: raise HTTPException(400, str(exc))
    except Exception: raise HTTPException(500, failure)], and then [k]. *)
Definition guarded {A B} (c : M A) (failure : string) (k : A -> endpoint B)
  : endpoint B :=
  fun self =>
    match c self with
    | (Returned a, self') => k a self'
    | (Raised (LicenseError msg), self') => (HTTPException 400 msg, self')
    | (Raised OtherException, self') => (HTTPException 500 failure, self')
    end.

(** [lic.customer.Name] and [lic.customer.Email] (l.141-142 of
    [licensing.py]) raise.  [status] reads the customer of the record as
    an object with these attributes.  A [LicenseKey] of the SDK that keeps
    the customer as the dictionary of the server's response has not the
    attributes, and the read raises [AttributeError] when the record has a
    customer.  [attributes] tells whether the customer has them. *)
Definition customer_read_raises (attributes : bool) (self : LicenseManager) : bool :=
  match _license self with
  | Some lic =>
      match LicenseKey.customer lic with
      | Some _ => negb attributes
      | None => false
      end
  | None => false
  end.

(** [license_manager.status()] as the endpoints call it. *)
Definition status_call (attributes : bool) (now_policy now_active now_reason : datetime)
  : M (bool * Status.t) :=
  self <- get ;;
  raise_if (customer_read_raises attributes self) OtherException ;;
  status config now_policy now_active now_reason.

(** [status()] where [license_activate] and [license_refresh] call it,
    after their [try] (l.159, l.178): it starts the background refresh
    that the policy asks for, and the dictionary is the body.  What it
    raises no handler catches, and the framework answers 500. *)
Definition status_body (attributes : bool) (now_policy now_active now_reason : datetime)
  : endpoint Status.t :=
  fun self =>
    match status_call attributes now_policy now_active now_reason self with
    | (Returned (_, d), self') => (Responded d, self')
    | (Raised e, self') => (HTTPException 500 "Internal Server Error", self')
    end.

Definition license_activate (license_key : string) (Key_activate : Authority)
    (now_expiry now_commit : datetime) (w : write_outcome) (attributes : bool)
    (now_policy now_active now_reason : datetime)
  : endpoint (Status.t * string) :=
  guarded (activate config (Some license_key) Key_activate now_expiry now_commit w)
    "Activation failed. Please try again."
    (fun _ self =>
       match status_body attributes now_policy now_active now_reason self with
       | (Responded d, self') => (Responded (d, "License activated successfully."), self')
       | (HTTPException code detail, self') => (HTTPException code detail, self')
       end).

Definition license_refresh (Key_activate : Authority) (now_commit : datetime)
    (w : write_outcome) (attributes : bool) (now_policy now_active now_reason : datetime)
  : endpoint Status.t :=
  guarded (refresh config Key_activate now_commit w)
    "Failed to refresh license. Please try again."
    (fun _ => status_body attributes now_policy now_active now_reason).

Definition license_deactivate (r : removal) : endpoint string :=
  guarded (deactivate_fs r)
    "Failed to deactivate license. Please try again."
    (fun _ self => (Responded "License deactivated successfully.", self)).

(** The test at the head of [analyze_endpoint] and of [save_endpoint]:
    [if not is_active(): raise HTTPException(403, inactive_reason())]. *)
Definition licensed {A} (now_active now_reason : datetime) (k : endpoint A)
  : endpoint A :=
  fun self =>
    match is_active now_active self with
    | (Returned true, self') => k self'
    | (Returned false, self') =>
        match inactive_reason now_reason self' with
        | (Returned reason, self'') => (HTTPException 403 reason, self'')
        | (Raised _, self'') => (HTTPException 500 "Internal Server Error", self'')
        end
    | (Raised _, self') => (HTTPException 500 "Internal Server Error", self')
    end.

(** What the worker of [_perform_analysis] does: it returns the metrics
    of the downloaded file, or raises. *)
Record AnalysisResult : Type := mkResult
  { bpm : Z; key : string; file_path : string; file_resolved : string;
    file_name : string }.

Inductive worker_result : Type :=
| Analysed (results : AnalysisResult)
| RaisedValueError (msg : string)
| RaisedDownloadError (msg : string)
| RaisedAnalysisError (msg : string)
| RaisedOther.

Record AnalyzeResponse : Type := mkAnalyze
  { a_url : string; a_bpm : Z; a_key : string; a_file_path : string;
    a_filename : string }.

Definition analyze_endpoint (url : string) (now_active now_reason : datetime)
    (work : worker_result) : endpoint AnalyzeResponse :=
  licensed now_active now_reason
    (fun self =>
       match work with
       | Analysed results =>
           (Responded (mkAnalyze url (bpm results) (key results)
                         (file_resolved results) (file_name results)), self)
       | RaisedValueError msg => (HTTPException 400 msg, self)
       | RaisedDownloadError msg => (HTTPException 502 msg, self)
       | RaisedAnalysisError msg => (HTTPException 500 msg, self)
       | RaisedOther =>
           (HTTPException 500
              "Unexpected error occurred during analysis. Check service logs.", self)
       end).

(** What is raised inside the [try] of [save_endpoint]: its own
    [HTTPException(404)], or an error of the file system. *)
Inductive save_failure : Type :=
| SourceNotFound
| FileSystemError (text : string).

Record SaveResponse : Type := mkSave
  { success : bool; saved_path : option string; s_message : string }.

(** The body of the [try] of [save_endpoint].  [source_exists] is
    [source.exists()]; [name], [stem] and [suffix] are those of the source
    path; [exists_] tells the names that exist in the save directory;
    [directory_ok] and [copied] tell whether making the directory and
    copying succeed, and [os_error] is the text of the error otherwise;
    [resolve] gives the resolved path of a name in the save directory. *)
Definition save_body (source_exists : bool) (name stem suffix : string)
    (exists_ : string -> bool) (fuel : nat) (directory_ok copied : bool)
    (os_error : string) (resolve : string -> string)
  : option (save_failure + SaveResponse) :=
  if negb source_exists then Some (inl SourceNotFound)
  else if negb directory_ok then Some (inl (FileSystemError os_error))
  else
    match (if exists_ name
           then Download.unique_loop exists_ stem suffix fuel name 1
           else Some name) with
    | None => None
    | Some destination =>
        if negb copied then Some (inl (FileSystemError os_error))
        else Some (inr (mkSave true (Some (resolve destination))
                          ("Saved to " ++ resolve destination)))
    end.

(** [save_endpoint]: [str_404] is what [str()] gives for the
    [HTTPException(404)] of the body.  [None] when the loop over the
    names has not ended within [fuel] tests. *)
Definition save_endpoint (now_active now_reason : datetime)
    (source_exists : bool) (name stem suffix : string)
    (exists_ : string -> bool) (fuel : nat) (directory_ok copied : bool)
    (os_error str_404 : string) (resolve : string -> string)
  : LicenseManager -> option (http SaveResponse * LicenseManager) :=
  fun self =>
    match is_active now_active self with
    | (Returned false, self') =>
        match inactive_reason now_reason self' with
        | (Returned reason, self'') => Some (HTTPException 403 reason, self'')
        | (Raised _, self'') => Some (HTTPException 500 "Internal Server Error", self'')
        end
    | (Raised _, self') => Some (HTTPException 500 "Internal Server Error", self')
    | (Returned true, self') =>
        match save_body source_exists name stem suffix exists_ fuel
                directory_ok copied os_error resolve with
        | None => None
        | Some (inr response) => Some (Responded response, self')
        | Some (inl SourceNotFound) =>
            Some (HTTPException 500 ("Failed to save file: " ++ str_404), self')
        | Some (inl (FileSystemError text)) =>
            Some (HTTPException 500 ("Failed to save file: " ++ text), self')
        end
    end.

End Endpoints.

End Service.

(** ** Tactics *)

(** Case analysis on what the hypotheses say of an outcome. *)
Ltac settle_hyps :=
  repeat match goal with
    | H : _ \/ _ |- _ => destruct H
    | H : exists _, _ |- _ => destruct H
    | H : _ /\ _ |- _ => destruct H
    | H : Some _ = Some _ |- _ => injection H as H; try subst
    | H : (_, _) = (_, _) |- _ => injection H; clear H; intros; try subst
    | E : ?x = Some _, H : context [match ?x with _ => _ end] |- _ => rewrite E in H
    | E : ?x = None, H : context [match ?x with _ => _ end] |- _ => rewrite E in H
    end.

Ltac settle :=
  repeat match goal with
    | |- _ /\ _ => split
    | |- forall _, _ => intro
    | |- ~ _ => intro
    end;
  settle_hyps;
  try solve [ congruence | discriminate | reflexivity | eauto
            | eexists; split; [reflexivity|reflexivity]
            | eexists; reflexivity ].

Ltac step_method :=
  cbv [activate refresh deactivate bind raise_if get_rsa_key get raise ret modify
       _save_state try_except write_file].

(** * Properties *)

(** ** Strings *)

Module PyStrFacts.
Import PyStr.

Lemma prefix_app (n post : string) : String.prefix n (n ++ post) = true.
Proof.
  induction n as [|c n IH]; simpl.
  - now destruct post.
  - destruct (ascii_dec c c) as [_|ne]; [exact IH | now elim ne].
Qed.

Lemma prefix_inv (n h : string) :
  String.prefix n h = true -> exists post, h = n ++ post.
Proof.
  revert h; induction n as [|c n IH]; intros h H.
  - now exists h.
  - destruct h as [|d h]; simpl in H; [discriminate|].
    destruct (ascii_dec c d) as [->|_]; [|discriminate].
    destruct (IH _ H) as [post ->]. now exists post.
Qed.

Lemma contains_unfold (n h : string) :
  contains n h =
  String.prefix n h
  || match h with EmptyString => false | String _ t => contains n t end.
Proof. now destruct h. Qed.

Lemma contains_occurs (n h : string) : contains n h = true <-> occurs n h.
Proof.
  split.
  - induction h as [|c h IH]; rewrite contains_unfold; intros H;
      apply orb_true_iff in H; destruct H as [H|H].
    + destruct (prefix_inv _ _ H) as [post E]. now exists "", post.
    + discriminate.
    + destruct (prefix_inv _ _ H) as [post E]. now exists "", post.
    + destruct (IH H) as (pre & post & ->). now exists (String c pre), post.
  - intros (pre & post & ->).
    induction pre as [|c pre IH].
    + rewrite contains_unfold. change ("" ++ n ++ post) with (n ++ post).
      now rewrite prefix_app.
    + change (String.prefix n (String c (pre ++ n ++ post))
              || contains n (pre ++ n ++ post) = true).
      rewrite IH. apply orb_true_r.
Qed.

Lemma lower_app (a b : string) : lower (a ++ b) = lower a ++ lower b.
Proof. induction a as [|c a IH]; simpl; [reflexivity | now rewrite IH]. Qed.

Lemma lower_split (s a b : string) :
  lower s = a ++ b ->
  exists a' b', s = a' ++ b' /\ lower a' = a /\ lower b' = b.
Proof.
  revert s; induction a as [|c a IH]; intros s H.
  - now exists "", s.
  - destruct s as [|d s]; simpl in H; [discriminate|].
    injection H as Hc Hs.
    destruct (IH _ Hs) as (a' & b' & -> & <- & <-).
    exists (String d a'), b'. simpl. now rewrite Hc.
Qed.

(** The test of the source, [word in s.lower()], for a lower-case
    [word], is the occurrence of [word] in any letter case. *)
Lemma contains_lower (word s : string) :
  lower word = word ->
  (contains word (lower s) = true <-> mentions word s).
Proof.
  intros Hw. rewrite contains_occurs. split.
  - intros (pre & post & E).
    destruct (lower_split _ _ _ E) as (pre' & rest & -> & _ & E2).
    destruct (lower_split _ _ _ E2) as (mid & post' & -> & E3 & _).
    exists pre', mid, post'. now rewrite Hw.
  - intros (pre & mid & post & -> & E).
    exists (lower pre), (lower post).
    now rewrite !lower_app, E, Hw.
Qed.

Lemma truthy_false (s : string) : truthy s = false <-> s = "".
Proof. destruct s; simpl; split; congruence. Qed.


End PyStrFacts.

(** ** Masking of the key *)

Section Masking.
Import PyStr.

Lemma length_app (a b : string) :
  String.length (a ++ b) = (String.length a + String.length b)%nat.
Proof. induction a as [|c a IH]; simpl; [reflexivity | now rewrite IH]. Qed.

Lemma substring_all (s : string) : substring 0 (String.length s) s = s.
Proof. induction s as [|c s IH]; simpl; [reflexivity | now rewrite IH]. Qed.

Lemma substring_tail (n : nat) (s : string) :
  (n <= String.length s)%nat ->
  exists front,
    s = front ++ substring n (String.length s - n) s /\ String.length front = n.
Proof.
  revert s; induction n as [|n IH]; intros s Hn.
  - exists "". now rewrite Nat.sub_0_r, substring_all.
  - destruct s as [|c s]; simpl in Hn; [lia|].
    destruct (IH s) as (front & E & L); [lia|].
    exists (String c front). simpl. now rewrite <- E, L.
Qed.

Lemma last_chars_split (k : nat) (s : string) :
  (k <= String.length s)%nat ->
  exists front,
    s = front ++ last_chars k s /\ String.length (last_chars k s) = k.
Proof.
  intros Hk. unfold last_chars.
  destruct (substring_tail (String.length s - k) s) as (front & E & L); [lia|].
  replace (String.length s - (String.length s - k))%nat with k in E by lia.
  exists front. split; [exact E|].
  apply (f_equal String.length) in E. rewrite length_app, L in E. lia.
Qed.

Lemma remove_hyphens_spaces (s : string) :
  remove_char " " (remove_char "-" s) = without_hyphens_spaces s.
Proof.
  induction s as [|c s IH]; [reflexivity|]. simpl.
  destruct (Ascii.eqb c "-") eqn:Eh; simpl; [exact IH|].
  destruct (Ascii.eqb c " "); simpl; now rewrite IH.
Qed.

Lemma contains_char (a c : ascii) (t : string) :
  contains (String a "") (String c t)
  = (Ascii.eqb a c || contains (String a "") t)%bool.
Proof.
  rewrite PyStrFacts.contains_unfold. f_equal.
  cbn [String.prefix].
  destruct (ascii_dec a c) as [->|ne].
  - rewrite Ascii.eqb_refl. now destruct t.
  - symmetry. now apply Ascii.eqb_neq.
Qed.

Lemma without_hyphens_spaces_clean (s : string) :
  contains "-" (without_hyphens_spaces s) = false
  /\ contains " " (without_hyphens_spaces s) = false.
Proof.
  induction s as [|c s [IH1 IH2]]; [now split|].
  cbn [without_hyphens_spaces].
  destruct (Ascii.eqb c "-") eqn:Eh; [now split|].
  destruct (Ascii.eqb c " ") eqn:Es; [now split|].
  cbn [orb]. rewrite !contains_char, IH1, IH2.
  rewrite (Ascii.eqb_sym "-" c), (Ascii.eqb_sym " " c), Eh, Es. now split.
Qed.

End Masking.

(** C9, as the code has it: for every license key string but the empty
    one, [_mask_key] removes the hyphens and the spaces, returns the
    remainder as it is when it has 4 characters or fewer, and otherwise
    returns ["***"] followed by exactly the last 4 characters of the
    remainder; ["ABCD-1234-EFGH-5678"] gives ["***5678"] and ["AB"] gives
    ["AB"].  The empty key and the missing key give [None]. *)
Theorem mask_key_rule (k : string) (Hk : k <> "") :
  let r := without_hyphens_spaces k in
  PyStr.contains "-" r = false /\ PyStr.contains " " r = false
  /\ ((String.length r <= 4)%nat -> _mask_key (Some k) = Some r)
  /\ ((4 < String.length r)%nat ->
      exists front tail,
        r = front ++ tail /\ String.length tail = 4%nat
        /\ _mask_key (Some k) = Some ("***" ++ tail))
  /\ _mask_key (Some "ABCD-1234-EFGH-5678") = Some "***5678"
  /\ _mask_key (Some "AB") = Some "AB"
  /\ _mask_key (Some "") = None
  /\ _mask_key None = None.
Proof.
  intros r.
  destruct (without_hyphens_spaces_clean k) as [Hh Hs].
  repeat split; try assumption; try reflexivity.
  - intros Hlen. unfold _mask_key.
    destruct k as [|c k]; [now elim Hk|]. cbn [PyStr.truthy negb].
    rewrite remove_hyphens_spaces. fold r.
    unfold PyStr.len.
    destruct (Z.leb_spec (Z.of_nat (String.length r)) 4); [reflexivity | lia].
  - intros Hlen. unfold _mask_key.
    destruct k as [|c k]; [now elim Hk|]. cbn [PyStr.truthy negb].
    rewrite remove_hyphens_spaces. fold r.
    destruct (last_chars_split 4 r) as (front & E & L); [lia|].
    exists front, (PyStr.last_chars 4 r). repeat split; try assumption.
    unfold PyStr.len.
    destruct (Z.leb_spec (Z.of_nat (String.length r)) 4); [lia | reflexivity].
Qed.

Lemma mask_key_rule_witness :
  "A-B C-D-E" <> ""
  /\ exists front tail,
      "ABCDE" = front ++ tail /\ String.length tail = 4%nat
      /\ _mask_key (Some "A-B C-D-E") = Some ("***" ++ tail).
Proof.
  split; [discriminate|].
  apply (mask_key_rule "A-B C-D-E"); [discriminate | simpl; lia].
Defined.

(** C9 as stated fails at the empty key: its remainder has no more than
    4 characters, and [_mask_key] returns [None], not the remainder. *)
Lemma mask_key_empty_counterexample :
  (String.length (without_hyphens_spaces "") <= 4)%nat
  /\ _mask_key (Some "") <> Some (without_hyphens_spaces "").
Proof. split; [simpl; lia | discriminate]. Qed.

(** ** The derived state *)

Lemma is_active_unlocked_iff {sdk : Cryptolens} (now : datetime) (self : LicenseManager) :
  _is_active_unlocked now self = true
  <-> exists lic,
        _license self = Some lic
        /\ LicenseKey.block lic = false
        /\ (LicenseKey.expires lic = None
            \/ exists e, LicenseKey.expires lic = Some e /\ PyDatetime.ltb e now = false)
        /\ IsOnRightMachine lic = true.
Proof.
  unfold _is_active_unlocked, expired. split.
  - destruct (_license self) as [lic|]; [|discriminate].
    destruct (LicenseKey.block lic) eqn:Hb; [discriminate|].
    destruct (LicenseKey.expires lic) as [e|] eqn:He.
    + destruct (PyDatetime.ltb e now) eqn:Hlt; [discriminate|].
      intros Hm. exists lic. repeat split; try assumption.
      right. now exists e.
    + intros Hm. exists lic. repeat split; try assumption. now left.
  - intros (lic & -> & -> & Hexp & Hm).
    destruct Hexp as [-> | (e & -> & ->)]; exact Hm.
Qed.

Lemma fresh_manager (config : Config) {sdk : Cryptolens}
    (machine_code : string) (readable : bool) (t0 : datetime) :
  __init__ config machine_code None readable t0
  = mkManager machine_code None None None None.
Proof. reflexivity. Qed.

(** C1: [is_active()] returns, and it returns [True] exactly when a
    record is cached, its [block] flag is false, its expiry is absent or
    not before the current time, and the machine check of the SDK
    accepts it.  On a fresh manager with no file, [is_active()] is
    [False] and the message of [status()] says that the product is not
    activated. *)
Theorem is_active_iff (config : Config) {sdk : Cryptolens}
    (now : datetime) (self : LicenseManager) :
  (exists b,
      is_active now self = (Returned b, self)
      /\ (b = true
          <-> exists lic,
                _license self = Some lic
                /\ LicenseKey.block lic = false
                /\ (LicenseKey.expires lic = None
                    \/ exists e, LicenseKey.expires lic = Some e
                                 /\ PyDatetime.ltb e now = false)
                /\ IsOnRightMachine lic = true))
  /\ (forall machine_code readable t0 now_policy now_active now_reason,
        let fresh := __init__ config machine_code None readable t0 in
        is_active now fresh = (Returned false, fresh)
        /\ exists started d msg,
            status config now_policy now_active now_reason fresh
            = (Returned (started, d), fresh)
            /\ Status.active d = false
            /\ Status.message d = Some msg
            /\ msg = "BeatChecker is not activated. Please enter a license key."
            /\ occurs "not activated" msg).
Proof.
  split.
  - exists (_is_active_unlocked now self). split; [reflexivity|].
    apply is_active_unlocked_iff.
  - intros machine_code readable t0 now_policy now_active now_reason fresh.
    subst fresh. rewrite fresh_manager. split; [reflexivity|].
    cbv [status bind get ret].
    eexists _, _, _. split; [reflexivity|]. cbn.
    repeat split.
    exists "BeatChecker is ", ". Please enter a license key.". reflexivity.
Qed.

(** ** The date of the expiry message *)

Section Dates.
Import PyDatetime.

Lemma decimal_from_app (acc : Z) (a b : string) :
  decimal_from acc (a ++ b) = decimal_from (decimal_from acc a) b.
Proof. revert acc; induction a as [|c a IH]; intros acc; simpl; [reflexivity | apply IH]. Qed.

Lemma code_digit (n : Z) : PyStr.code (digit n) - 48 = n mod 10.
Proof.
  unfold PyStr.code, digit.
  assert (0 <= n mod 10 < 10) by (apply Z.mod_pos_bound; lia).
  rewrite nat_ascii_embedding by lia. lia.
Qed.

Lemma pad_length (w : nat) (n : Z) : String.length (pad w n) = w.
Proof.
  revert n; induction w as [|w IH]; intros n; simpl; [reflexivity|].
  rewrite length_app, IH. simpl. lia.
Qed.

Lemma pad_decimal (w : nat) (n acc : Z) :
  decimal_from acc (pad w n) = acc * 10 ^ Z.of_nat w + n mod 10 ^ Z.of_nat w.
Proof.
  revert n acc; induction w as [|w IH]; intros n acc.
  - simpl. rewrite Z.mod_1_r. lia.
  - cbn [pad]. rewrite decimal_from_app, IH. cbn [decimal_from].
    rewrite code_digit, Nat2Z.inj_succ, Z.pow_succ_r by lia.
    rewrite (Z.rem_mul_r n 10 (10 ^ Z.of_nat w)) by lia. lia.
Qed.

Lemma pad_exact (w : nat) (n : Z) :
  0 <= n < 10 ^ Z.of_nat w -> decimal (pad w n) = n.
Proof.
  intros Hn. unfold decimal. rewrite pad_decimal, Z.mod_small by assumption. lia.
Qed.

(** [date_string] is [YYYY-MM-DD]: the year on four digits, the month
    and the day on two. *)
Lemma date_string_format (e : datetime) :
  0 <= year e <= 9999 -> 0 <= month e <= 99 -> 0 <= day e <= 99 ->
  exists Y Mo D,
    date_string e = Y ++ "-" ++ Mo ++ "-" ++ D
    /\ String.length Y = 4%nat /\ String.length Mo = 2%nat /\ String.length D = 2%nat
    /\ decimal Y = year e /\ decimal Mo = month e /\ decimal D = day e.
Proof.
  intros Hy Hm Hd.
  exists (pad 4 (year e)), (pad 2 (month e)), (pad 2 (day e)).
  rewrite !pad_length, !pad_exact by (simpl; lia).
  repeat split.
Qed.

(** From the year 1000 on, [strftime("%Y-%m-%d")] writes [YYYY-MM-DD]. *)
Lemma strftime_Ymd_four_digits (e : datetime) :
  1000 <= year e -> strftime_Ymd e = date_string e.
Proof.
  intros Hy. unfold strftime_Ymd, date_string, strftime_Y.
  destruct (Z.ltb_spec (year e) 10); [lia|].
  destruct (Z.ltb_spec (year e) 100); [lia|].
  destruct (Z.ltb_spec (year e) 1000); [lia|].
  reflexivity.
Qed.

End Dates.

(** ** The reason of inactivity *)




(** ** The refresh policy *)

Lemma sub_elapsed (a b : datetime) :
  PyDatetime.sub a b = microseconds_of a - microseconds_of b.
Proof. unfold PyDatetime.sub, microseconds_of. lia. Qed.

(** C5: the flag on which [status()] starts a background refresh is
    [_should_refresh()], which is [False] when no key is cached, [False]
    when the cached record is blocked, [True] when a key is cached, the
    record is not blocked and no refresh has happened, and otherwise
    [True] exactly when more than 3600 seconds have passed since the last
    refresh. *)
Theorem should_refresh_policy (config : Config) {sdk : Cryptolens}
    (now now_active now_reason : datetime) (self : LicenseManager) :
  (exists d,
      status config now now_active now_reason self
      = (Returned (_should_refresh now self, d), self))
  /\ (PyStr.otruthy (_license_string self) = false -> _should_refresh now self = false)
  /\ (blocked_flag self = Some true -> _should_refresh now self = false)
  /\ (PyStr.otruthy (_license_string self) = true ->
      blocked_flag self <> Some true ->
      _last_refresh self = None ->
      _should_refresh now self = true)
  /\ (forall last,
      PyStr.otruthy (_license_string self) = true ->
      blocked_flag self <> Some true ->
      _last_refresh self = Some last ->
      (_should_refresh now self = true
       <-> 3600 * 1000000 < microseconds_of now - microseconds_of last)).
Proof.
  assert (Hblk : blocked_flag self <> Some true ->
                 match _license self with
                 | Some lic => LicenseKey.block lic
                 | None => false
                 end = false).
  { unfold blocked_flag. destruct (_license self) as [lic|]; [|reflexivity].
    simpl. destruct (LicenseKey.block lic); [now intros H; elim H | reflexivity]. }
  split; [|unfold _should_refresh; split; [|split; [|split]]].
  - cbv [status bind get ret]. eexists. reflexivity.
  - now intros ->.
  - unfold blocked_flag. destruct (_license self) as [lic|]; [|discriminate].
    simpl. intros [= ->]. now destruct (PyStr.otruthy _).
  - intros -> Hb ->. now rewrite (Hblk Hb).
  - intros last -> Hb ->. rewrite (Hblk Hb). cbn [negb].
    unfold PyDatetime.total_seconds_gtb. rewrite sub_elapsed. lia.
Qed.

Lemma should_refresh_policy_witness :
  PyStr.otruthy (_license_string Sample.activated) = true
  /\ blocked_flag Sample.activated <> Some true
  /\ _last_refresh Sample.activated = Some Sample.noon
  /\ 3600 * 1000000 < microseconds_of Sample.later - microseconds_of Sample.noon
  /\ _should_refresh Sample.later Sample.activated = true.
Proof.
  assert (Hb : blocked_flag Sample.activated <> Some true) by discriminate.
  split; [reflexivity|]. split; [exact Hb|]. split; [reflexivity|].
  split; [reflexivity|].
  destruct (should_refresh_policy Sample.config (sdk := Sample.sdk)
              Sample.later Sample.later Sample.later Sample.activated)
    as (_ & _ & _ & _ & H).
  apply (H Sample.noon eq_refl Hb eq_refl). reflexivity.
Defined.

(** ** Operations without a cached key *)

(** C8: when no license key is cached, [refresh()] and [deactivate()]
    raise the error of a manager that is not activated, and the manager
    and its file are as before.  The source has one exception class,
    [LicenseError]; the case is told by its message. *)
Theorem not_activated_error (config : Config) {sdk : Cryptolens}
    (self : LicenseManager) (Key_activate : Authority) (now : datetime)
    (w : write_outcome) (unlinked : bool) :
  PyStr.otruthy (_license_string self) = false ->
  refresh config Key_activate now w self
  = (Raised (LicenseError msg_not_activated), self)
  /\ deactivate unlinked self
     = (Raised (LicenseError msg_not_activated), self).
Proof.
  intros H. unfold refresh, deactivate, bind, get, raise_if.
  rewrite H. split; reflexivity.
Qed.

Lemma not_activated_error_witness :
  _license_string Sample.fresh = None
  /\ refresh Sample.config (sdk := Sample.sdk)
       (Sample.answers (Some Sample.valid, None)) Sample.noon Written Sample.fresh
     = (Raised (LicenseError msg_not_activated), Sample.fresh)
  /\ deactivate true Sample.fresh
     = (Raised (LicenseError msg_not_activated), Sample.fresh).
Proof.
  split; [reflexivity|].
  apply (not_activated_error Sample.config (sdk := Sample.sdk)). reflexivity.
Defined.

(** ** Activation *)


Lemma message_or_message_of (default : string) (result : Answer) :
  message_or default result
  = if PyStr.truthy (message_of result) then message_of result else default.
Proof.
  unfold message_or, message_of. destruct (snd result) as [m|]; reflexivity.
Qed.

Section ActivateCases.

Context (config : Config) {sdk : Cryptolens}.
Variables (license_key : option string) (Key_activate : Authority).
Variables (now_expiry now_commit : datetime) (w : write_outcome).
Variable self : LicenseManager.

Lemma activate_empty_key :
sent_key license_key = "" ->
activate config license_key Key_activate now_expiry now_commit w self
= (Raised (LicenseError msg_key_required), self).
Proof.
intros H. step_method. fold (sent_key license_key). now rewrite H.
Qed.

Lemma activate_no_token :
sent_key license_key <> "" ->
PyStr.otruthy (LICENSE_ACCESS_TOKEN config) = false ->
activate config license_key Key_activate now_expiry now_commit w self
= (Raised (LicenseError msg_no_token), self).
Proof.
intros Hk Ht. step_method. fold (sent_key license_key).
destruct (sent_key license_key); [now elim Hk|].
cbn [PyStr.truthy negb]. now rewrite Ht.
Qed.

Lemma activate_no_rsa_key :
sent_key license_key <> "" ->
PyStr.otruthy (LICENSE_ACCESS_TOKEN config) = true ->
PyStr.otruthy (LICENSE_RSA_PUBLIC_KEY config) = false ->
activate config license_key Key_activate now_expiry now_commit w self
= (Raised (LicenseError rsa_key_missing), self).
Proof.
intros Hk Ht Hr. step_method. fold (sent_key license_key).
destruct (sent_key license_key); [now elim Hk|].
cbn [PyStr.truthy negb]. rewrite Ht. cbn [negb].
destruct (LICENSE_RSA_PUBLIC_KEY config) as [rsa|]; [|reflexivity].
simpl in Hr. now rewrite Hr.
Qed.

(** [activate] past its three tests of the key and of the configuration. *)
Lemma activate_calls_server :
sent_key license_key <> "" ->
PyStr.otruthy (LICENSE_ACCESS_TOKEN config) = true ->
PyStr.otruthy (LICENSE_RSA_PUBLIC_KEY config) = true ->
activate config license_key Key_activate now_expiry now_commit w self =
let result := activate_answer config Key_activate license_key self in
match fst result with
| None => (Raised (LicenseError (message_or "License activation failed." result)), self)
| Some lic =>
    if negb (IsOnRightMachine lic)
    then (Raised (LicenseError msg_not_this_machine), self)
    else
      match LicenseKey.expires lic with
      | Some e =>
          if PyDatetime.ltb e now_expiry
          then (Raised (LicenseError (msg_expired_on e)), self)
          else (Returned tt, committed lic now_commit w self)
      | None => (Returned tt, committed lic now_commit w self)
      end
end.
Proof.
intros Hk Ht Hr. unfold activate_answer, rsa_key. step_method.
fold (sent_key license_key).
destruct (sent_key license_key) as [|c key]; [now elim Hk|].
cbn [PyStr.truthy negb]. rewrite Ht. cbn [negb].
destruct (LICENSE_RSA_PUBLIC_KEY config) as [rsa|]; [|discriminate].
simpl in Hr. rewrite Hr. fold (access_token config).
destruct (fst (Key_activate _ _ _ _ _)) as [lic|]; [|reflexivity].
destruct (IsOnRightMachine lic); [|reflexivity]. cbn [negb].
destruct (LicenseKey.expires lic) as [e|].
- destruct (PyDatetime.ltb e now_expiry); [reflexivity|]. now destruct w.
- now destruct w.
Qed.

End ActivateCases.

(** C3: [activate(key)] raises, and leaves the manager and its file as
    they are, whenever the key is empty once trimmed, the access token is
    not configured, the server rejects the call, the returned record is
    not bound to the local machine, or the returned record is already
    expired.  The error of each case, in the order in which the source
    tests them, is told by its message (the source has one exception
    class, [LicenseError]); the error of a rejection carries the message
    of the server.  [activate] returns only when none of the cases holds,
    and then it has committed the returned record. *)
Theorem activate_failure_cases (config : Config) {sdk : Cryptolens}
    (license_key : option string) (Key_activate : Authority)
    (now_expiry now_commit : datetime) (w : write_outcome) (self : LicenseManager) :
  let result := activate_answer config Key_activate license_key self in
  let run := activate config license_key Key_activate now_expiry now_commit w self in
  let empty_key := sent_key license_key = "" in
  let no_token := PyStr.otruthy (LICENSE_ACCESS_TOKEN config) = false in
  let rejected := fst result = None in
  let wrong_machine :=
    exists lic, fst result = Some lic /\ IsOnRightMachine lic = false in
  let expired_record :=
    exists lic, fst result = Some lic /\ expired now_expiry lic = true in
  (empty_key \/ no_token \/ rejected \/ wrong_machine \/ expired_record ->
   exists msg, run = (Raised (LicenseError msg), self))
  /\ (empty_key -> run = (Raised (LicenseError msg_key_required), self))
  /\ (~ empty_key -> no_token -> run = (Raised (LicenseError msg_no_token), self))
  /\ (PyStr.otruthy (LICENSE_RSA_PUBLIC_KEY config) = true ->
      ~ empty_key -> ~ no_token ->
      (rejected ->
       run = (Raised (LicenseError (message_or "License activation failed." result)), self)
       /\ (message_of result <> "" ->
           message_or "License activation failed." result = message_of result))
      /\ (wrong_machine -> run = (Raised (LicenseError msg_not_this_machine), self))
      /\ (forall lic e,
            fst result = Some lic -> IsOnRightMachine lic = true ->
            LicenseKey.expires lic = Some e -> PyDatetime.ltb e now_expiry = true ->
            run = (Raised (LicenseError (msg_expired_on e)), self)))
  /\ (forall self',
        run = (Returned tt, self') ->
        ~ empty_key /\ ~ no_token /\ ~ rejected /\ ~ wrong_machine /\ ~ expired_record
        /\ exists lic, fst result = Some lic /\ self' = committed lic now_commit w self).
Proof.
  intros result run empty_key no_token rejected wrong_machine expired_record.
  pose proof (activate_empty_key config license_key Key_activate
                now_expiry now_commit w self) as Hempty.
  pose proof (activate_no_token config license_key Key_activate
                now_expiry now_commit w self) as Htoken.
  pose proof (activate_no_rsa_key config license_key Key_activate
                now_expiry now_commit w self) as Hrsa.
  pose proof (activate_calls_server config license_key Key_activate
                now_expiry now_commit w self) as Hcall.
  cbv zeta in Hcall. fold result in Hcall. fold run in Hempty, Htoken, Hrsa, Hcall.
  pose proof (message_or_message_of "License activation failed." result) as Hmsg.
  subst empty_key no_token rejected wrong_machine expired_record. cbv beta.
  unfold expired.
  destruct (string_dec (sent_key license_key) "") as [Hk|Hk].
  { rewrite (Hempty Hk). settle. }
  destruct (PyStr.otruthy (LICENSE_ACCESS_TOKEN config)) eqn:Ht.
  2:{ rewrite (Htoken Hk eq_refl). settle. }
  destruct (PyStr.otruthy (LICENSE_RSA_PUBLIC_KEY config)) eqn:Hr.
  2:{ rewrite (Hrsa Hk eq_refl eq_refl). settle. }
  rewrite (Hcall Hk eq_refl eq_refl). clear Hcall Hempty Htoken Hrsa.
  destruct (fst result) as [lic|].
  2:{ settle. rewrite Hmsg. destruct (message_of result); [congruence | reflexivity]. }
  clear Hmsg.
  destruct (IsOnRightMachine lic) eqn:Hm; cbn [negb]; [|settle].
  destruct (LicenseKey.expires lic) as [e|] eqn:He; [|settle].
  destruct (PyDatetime.ltb e now_expiry) eqn:Hlt; settle.
Qed.

Lemma activate_failure_cases_witness :
  let run a k :=
    activate Sample.config (sdk := Sample.sdk) (Some k) (Sample.answers a)
      Sample.noon Sample.noon Written Sample.activated in
  run (Some Sample.valid, None) "   "
  = (Raised (LicenseError "A license key is required."), Sample.activated)
  /\ run (None, Some "Key not found") "KEY"
     = (Raised (LicenseError "Key not found"), Sample.activated)
  /\ run (Some Sample.elsewhere, None) "KEY"
     = (Raised (LicenseError "This license cannot be activated on this machine."),
        Sample.activated)
  /\ run (Some Sample.lapsed, None) "KEY"
     = (Raised (LicenseError "This license expired on 2023-12-31 and cannot be activated."),
        Sample.activated).
Proof.
  intros run.
  pose (thm a k := activate_failure_cases Sample.config (sdk := Sample.sdk) (Some k)
                     (Sample.answers a) Sample.noon Sample.noon Written Sample.activated).
  split; [|split; [|split]].
  - apply (thm (Some Sample.valid, None) "   "). reflexivity.
  - destruct (thm (None, Some "Key not found") "KEY") as (_ & _ & _ & H & _).
    apply H; [reflexivity | discriminate | discriminate | reflexivity].
  - destruct (thm (Some Sample.elsewhere, None) "KEY") as (_ & _ & _ & H & _).
    apply H; [reflexivity | discriminate | discriminate |].
    now exists Sample.elsewhere.
  - destruct (thm (Some Sample.lapsed, None) "KEY") as (_ & _ & _ & H & _).
    destruct H as (_ & _ & H); [reflexivity | discriminate | discriminate |].
    apply (H Sample.lapsed Sample.end_of_2023); reflexivity.
Defined.

(** ** Refresh *)

Section RefreshCases.

Context (config : Config) {sdk : Cryptolens}.
Variables (Key_activate : Authority) (now : datetime) (w : write_outcome).
Variable self : LicenseManager.

Lemma refresh_no_key :
PyStr.otruthy (_license_string self) = false ->
refresh config Key_activate now w self
= (Raised (LicenseError msg_not_activated), self).
Proof.
intros Hk. step_method. now rewrite Hk.
Qed.

Lemma refresh_no_token :
PyStr.otruthy (_license_string self) = true ->
PyStr.otruthy (LICENSE_ACCESS_TOKEN config) = false ->
refresh config Key_activate now w self
= (Raised (LicenseError msg_no_token), self).
Proof.
intros Hk Ht. step_method. now rewrite Hk, Ht.
Qed.

Lemma refresh_no_rsa_key :
PyStr.otruthy (_license_string self) = true ->
PyStr.otruthy (LICENSE_ACCESS_TOKEN config) = true ->
PyStr.otruthy (LICENSE_RSA_PUBLIC_KEY config) = false ->
refresh config Key_activate now w self
= (Raised (LicenseError rsa_key_missing), self).
Proof.
intros Hk Ht Hr. step_method. rewrite Hk, Ht. cbn [negb].
destruct (LICENSE_RSA_PUBLIC_KEY config) as [rsa|]; [|reflexivity].
simpl in Hr. now rewrite Hr.
Qed.

(** [refresh] past its tests of the cached key and of the configuration. *)
Lemma refresh_calls_server :
PyStr.otruthy (_license_string self) = true ->
PyStr.otruthy (LICENSE_ACCESS_TOKEN config) = true ->
PyStr.otruthy (LICENSE_RSA_PUBLIC_KEY config) = true ->
refresh config Key_activate now w self =
let result := refresh_answer config Key_activate self in
match fst result with
| None =>
    let error_msg := message_or msg_refresh_failed result in
    if PyStr.contains "blocked" (PyStr.lower error_msg)
    then match _license self with
         | Some existing =>
             (Returned tt, refreshed (LicenseKey.set_block true existing) now w self)
         | None => (Raised (LicenseError error_msg), self)
         end
    else (Raised (LicenseError error_msg), self)
| Some lic => (Returned tt, refreshed lic now w self)
end.
Proof.
intros Hk Ht Hr. unfold refresh_answer, rsa_key. step_method.
rewrite Hk, Ht. cbn [negb].
destruct (LICENSE_RSA_PUBLIC_KEY config) as [rsa|]; [|discriminate].
simpl in Hr. rewrite Hr. fold (access_token config) (current_key self).
destruct (fst (Key_activate _ _ _ _ _)) as [lic|]; [now destruct w|].
cbv zeta. fold msg_refresh_failed.
destruct (PyStr.contains _ _); [|reflexivity].
destruct (_license self) as [existing|]; [now destruct w | reflexivity].
Qed.

End RefreshCases.

(** The test of the source on the error message is the occurrence of
    [blocked], in any letter case, in the message of the server. *)
Lemma blocked_test (result : Answer) :
  PyStr.contains "blocked" (PyStr.lower (message_or msg_refresh_failed result)) = true
  <-> mentions "blocked" (message_of result).
Proof.
  rewrite message_or_message_of.
  destruct (message_of result) as [|c m] eqn:E; cbn [PyStr.truthy].
  - split; [discriminate|].
    intros H. apply PyStrFacts.contains_lower in H; [discriminate | reflexivity].
  - now apply PyStrFacts.contains_lower.
Qed.

(** C2: when the server rejects the call of [refresh()] with a message
    in which [blocked] occurs, in any letter case, and a record is cached,
    [refresh()] returns; the cached record has then its [block] flag set
    and its other attributes as before, the time of the last refresh is
    the current time, and the record has been written to the file.  When
    [blocked] does not occur in the message, [refresh()] raises an error
    with the message of the server (with a fixed message when the server
    gave none), and the manager and its file are as before. *)
Theorem refresh_rejected (config : Config) {sdk : Cryptolens}
    (Key_activate : Authority) (now : datetime) (w : write_outcome)
    (self : LicenseManager) :
  let result := refresh_answer config Key_activate self in
  let run := refresh config Key_activate now w self in
  PyStr.otruthy (_license_string self) = true ->
  PyStr.otruthy (LICENSE_ACCESS_TOKEN config) = true ->
  PyStr.otruthy (LICENSE_RSA_PUBLIC_KEY config) = true ->
  fst result = None ->
  (mentions "blocked" (message_of result) ->
   forall lic, _license self = Some lic ->
   exists lic' self',
     run = (Returned tt, self')
     /\ _license self' = Some lic'
     /\ LicenseKey.block lic' = true
     /\ LicenseKey.key lic' = LicenseKey.key lic
     /\ LicenseKey.customer lic' = LicenseKey.customer lic
     /\ LicenseKey.expires lic' = LicenseKey.expires lic
     /\ other_attributes lic' = other_attributes lic
     /\ lic' = LicenseKey.set_block true lic
     /\ _license_string self' = _license_string self
     /\ _machine_code self' = _machine_code self
     /\ _last_refresh self' = Some now
     /\ storage_file self' = file_after w (save_as_string lic')
     /\ (w = Written -> storage_file self' = Some (save_as_string lic')))
  /\ (~ mentions "blocked" (message_of result) ->
      run = (Raised (LicenseError (message_or msg_refresh_failed result)), self)
      /\ (message_of result <> "" ->
          message_or msg_refresh_failed result = message_of result)).
Proof.
  intros result run Hk Ht Hr Hrej. subst run.
  rewrite (refresh_calls_server config Key_activate now w self Hk Ht Hr).
  cbv zeta. fold result. rewrite Hrej.
  pose proof (blocked_test result) as Htest.
  destruct (PyStr.contains "blocked" _); split.
  - intros _ lic ->.
    exists (LicenseKey.set_block true lic),
           (refreshed (LicenseKey.set_block true lic) now w self).
    repeat split. now intros ->.
  - intros H. elim H. now apply Htest.
  - intros H. apply Htest in H. discriminate.
  - intros _. split; [reflexivity|].
    intros Hm. rewrite message_or_message_of.
    destruct (message_of result); [now elim Hm | reflexivity].
Qed.

Lemma refresh_rejected_witness :
  let run m :=
    refresh Sample.config (sdk := Sample.sdk) (Sample.answers (None, Some m))
      Sample.later Written Sample.activated in
  (exists self',
      run "This key has been Blocked" = (Returned tt, self')
      /\ _license self' = Some (LicenseKey.set_block true Sample.valid)
      /\ _last_refresh self' = Some Sample.later
      /\ storage_file self' = Some "ABCD-1234-EFGH-5678:blocked")
  /\ run "Could not contact the server."
     = (Raised (LicenseError "Could not contact the server."), Sample.activated).
Proof.
  intros run.
  pose (thm m := refresh_rejected Sample.config (sdk := Sample.sdk)
                   (Sample.answers (None, Some m)) Sample.later Written Sample.activated
                   eq_refl eq_refl eq_refl eq_refl).
  split.
  - destruct (thm "This key has been Blocked") as [H _].
    destruct (H (ex_intro _ "This key has been " (ex_intro _ "Blocked"
                   (ex_intro _ "" (conj eq_refl eq_refl)))) Sample.valid eq_refl)
      as (lic' & self' & Hrun & Hl & _ & _ & _ & _ & _ & E & _ & _ & Hn & Hf & _).
    exists self'. subst lic'. repeat split; assumption.
  - destruct (thm "Could not contact the server.") as [_ H].
    apply H. intros Hm.
    apply (PyStrFacts.contains_lower "blocked") in Hm; [discriminate | reflexivity].
Defined.

(** ** What a call leaves behind *)

Section Outcomes.

Context (config : Config) {sdk : Cryptolens}.

(** [activate] raises and changes nothing, or returns and has committed
    a record that the server gave. *)
Lemma activate_outcome (license_key : option string) (Key_activate : Authority)
    (now_expiry now_commit : datetime) (w : write_outcome) (self : LicenseManager) :
  let run := activate config license_key Key_activate now_expiry now_commit w self in
  (exists e, run = (Raised e, self))
  \/ (exists lic,
        answered_with (Activate license_key Key_activate now_expiry now_commit w) lic
        /\ run = (Returned tt, committed lic now_commit w self)).
Proof.
  intros run. subst run.
  destruct (string_dec (sent_key license_key) "") as [Hk|Hk].
  { left. eexists. now apply activate_empty_key. }
  destruct (PyStr.otruthy (LICENSE_ACCESS_TOKEN config)) eqn:Ht.
  2:{ left. eexists. now apply activate_no_token. }
  destruct (PyStr.otruthy (LICENSE_RSA_PUBLIC_KEY config)) eqn:Hr.
  2:{ left. eexists. now apply activate_no_rsa_key. }
  rewrite (activate_calls_server config license_key Key_activate
             now_expiry now_commit w self Hk Ht Hr).
  cbv zeta. unfold activate_answer.
  destruct (Key_activate (access_token config) (rsa_key config)
              (LICENSE_PRODUCT_ID config) (sent_key license_key) (_machine_code self))
    as [[lic|] msg] eqn:Hans; cbn [fst].
  2:{ left. now eexists. }
  assert (Hw : answered_with
                 (Activate license_key Key_activate now_expiry now_commit w) lic).
  { simpl. do 6 eexists. exact Hans. }
  destruct (IsOnRightMachine lic); cbn [negb]; [|left; now eexists].
  destruct (LicenseKey.expires lic) as [e|].
  - destruct (PyDatetime.ltb e now_expiry); [left; now eexists|].
    right. now exists lic.
  - right. now exists lic.
Qed.

(** [refresh] raises and changes nothing, or returns and has committed
    a record that the server gave, or returns and has set the [block]
    flag of the cached record. *)
Lemma refresh_outcome (Key_activate : Authority) (now : datetime)
    (w : write_outcome) (self : LicenseManager) :
  let run := refresh config Key_activate now w self in
  (exists e, run = (Raised e, self))
  \/ (exists lic,
        answered_with (Refresh Key_activate now w) lic
        /\ run = (Returned tt, refreshed lic now w self))
  \/ (exists existing,
        _license self = Some existing
        /\ run = (Returned tt,
                  refreshed (LicenseKey.set_block true existing) now w self)).
Proof.
  intros run. subst run.
  destruct (PyStr.otruthy (_license_string self)) eqn:Hk.
  2:{ left. eexists. now apply refresh_no_key. }
  destruct (PyStr.otruthy (LICENSE_ACCESS_TOKEN config)) eqn:Ht.
  2:{ left. eexists. now apply refresh_no_token. }
  destruct (PyStr.otruthy (LICENSE_RSA_PUBLIC_KEY config)) eqn:Hr.
  2:{ left. eexists. now apply refresh_no_rsa_key. }
  rewrite (refresh_calls_server config Key_activate now w self Hk Ht Hr).
  cbv zeta. unfold refresh_answer.
  destruct (Key_activate (access_token config) (rsa_key config)
              (LICENSE_PRODUCT_ID config) (current_key self) (_machine_code self))
    as [[lic|] msg] eqn:Hans; cbn [fst].
  - right; left. exists lic. split; [|reflexivity].
    simpl. do 6 eexists. exact Hans.
  - cbv zeta. destruct (PyStr.contains _ _); [|left; now eexists].
    destruct (_license self) as [existing|]; [|left; now eexists].
    right; right. now exists existing.
Qed.

(** [deactivate] raises and changes nothing, or returns and has cleared
    the record, the key and the time of the last refresh. *)
Lemma deactivate_outcome (unlinked : bool) (self : LicenseManager) :
  let run := deactivate unlinked self in
  (exists e, run = (Raised e, self))
  \/ (exists file,
        run = (Returned tt, mkManager (_machine_code self) None None None file)).
Proof.
  intros run. subst run. step_method.
  destruct (PyStr.otruthy (_license_string self)); cbn [negb].
  - right. cbn. destruct (storage_file self); [destruct unlinked|]; now eexists.
  - left. now eexists.
Qed.

(** The queries leave the manager as it is. *)
Lemma read_unchanged (o : op) (self : LicenseManager) :
  is_read o = true -> exec config o self = self.
Proof. destruct o; try discriminate; reflexivity. Qed.

End Outcomes.

(** ** The time of the last validation *)

(** C6, as the code has it: after [activate()] or [refresh()] returned,
    the [last_validated_at] of [status()] is the ISO form of the
    [sign_date] of the record now cached, the date at which the server
    signed it, or [None] when the record has none.  The time of the
    client at the commit is kept in [_last_refresh], which [status()]
    does not report. *)
Theorem last_validated_at_is_sign_date (config : Config) {sdk : Cryptolens}
    (o : op) (now : datetime) (self self' : LicenseManager) :
  commit_time o = Some now ->
  call config o self = (Returned tt, self') ->
  exists lic,
    _license self' = Some lic
    /\ (answered_with o lic
        \/ exists existing,
             _license self = Some existing /\ lic = LicenseKey.set_block true existing)
    /\ _last_refresh self' = Some now
    /\ forall now_active now_reason,
         Status.last_validated_at (status_dict config now_active now_reason self')
         = option_map PyDatetime.isoformat (LicenseKey.sign_date lic).
Proof.
  intros Ht Hcall.
  destruct o as [k a n1 n2 w | a n w | u | n1 n2 n3 | n | n];
    try discriminate Ht; injection Ht as ->; cbn [call] in Hcall.
  - destruct (activate_outcome config k a n1 now w self) as [(e & H)|(lic & Ha & H)];
      rewrite H in Hcall; [discriminate|].
    injection Hcall as <-. exists lic. repeat split. now left.
  - destruct (refresh_outcome config a now w self)
      as [(e & H)|[(lic & Ha & H)|(existing & He & H)]];
      rewrite H in Hcall; [discriminate| |]; injection Hcall as <-.
    + exists lic. repeat split. now left.
    + exists (LicenseKey.set_block true existing). repeat split.
      right. now exists existing.
Qed.

Lemma last_validated_at_is_sign_date_witness :
  let o := Activate (Some " ABCD-1234-EFGH-5678 ")
             (Sample.answers (Some Sample.valid, None))
             Sample.noon Sample.noon Written in
  call Sample.config (sdk := Sample.sdk) o Sample.fresh = (Returned tt, Sample.activated)
  /\ exists lic,
       _license Sample.activated = Some lic
       /\ _last_refresh Sample.activated = Some Sample.noon
       /\ Status.last_validated_at
            (status_dict Sample.config (sdk := Sample.sdk)
               Sample.later Sample.later Sample.activated)
          = option_map PyDatetime.isoformat (LicenseKey.sign_date lic).
Proof.
  intros o. split; [reflexivity|].
  destruct (last_validated_at_is_sign_date Sample.config (sdk := Sample.sdk)
              o Sample.noon Sample.fresh Sample.activated eq_refl eq_refl)
    as (lic & Hl & _ & Hr & Hs).
  exists lic. split; [exact Hl|]. split; [exact Hr | apply Hs].
Defined.

(** C6 as stated fails: the record was committed at noon on the clock of
    the client, and [status()] reports the date of the signature of the
    server, two seconds before. *)
Lemma last_validated_at_counterexample :
  activate Sample.config (sdk := Sample.sdk) (Some " ABCD-1234-EFGH-5678 ")
    (Sample.answers (Some Sample.valid, None)) Sample.noon Sample.noon Written
    Sample.fresh
  = (Returned tt, Sample.activated)
  /\ _last_refresh Sample.activated = Some Sample.noon
  /\ Status.last_validated_at
       (status_dict Sample.config (sdk := Sample.sdk)
          Sample.later Sample.later Sample.activated)
     = Some "2024-05-01T11:59:58"
  /\ Status.last_validated_at
       (status_dict Sample.config (sdk := Sample.sdk)
          Sample.later Sample.later Sample.activated)
     <> Some (PyDatetime.isoformat Sample.noon).
Proof. repeat split. discriminate. Qed.

(** ** The [block] flag *)

Lemma option_eq_dec_false (f : option bool) : {f = Some false} + {f <> Some false}.
Proof. destruct f as [[|]|]; [right|left|right]; congruence. Qed.

Section Sticky.

Context (config : Config) {sdk : Cryptolens}.

(** A call after which the flag is false, when it was not before, has
    committed a record of the server whose flag is false. *)
Lemma step_unblocks (o : op) (self : LicenseManager) :
  blocked_flag self <> Some false ->
  blocked_flag (exec config o self) = Some false ->
  exists lic,
    answered_with o lic /\ LicenseKey.block lic = false
    /\ _license (exec config o self) = Some lic.
Proof.
  intros Hb. unfold exec.
  destruct o as [k a n1 n2 w | a n w | u | n1 n2 n3 | n | n]; cbn [call].
  - destruct (activate_outcome config k a n1 n2 w self) as [(e & H)|(lic & Ha & H)];
      rewrite H; cbn [snd]; [now intros H'|].
    unfold blocked_flag. cbn. intros [= Hl]. now exists lic.
  - destruct (refresh_outcome config a n w self)
      as [(e & H)|[(lic & Ha & H)|(existing & He & H)]];
      rewrite H; cbn [snd]; [now intros H'| |discriminate].
    unfold blocked_flag. cbn. intros [= Hl]. now exists lic.
  - destruct (deactivate_outcome u self) as [(e & H)|(file & H)];
      rewrite H; cbn [snd]; [now intros H' | discriminate].
  - now intros H'.
  - now intros H'.
  - now intros H'.
Qed.


Lemma run_unblocks (ops : list op) (self : LicenseManager) :
  blocked_flag self <> Some false ->
  blocked_flag (run config ops self) = Some false ->
  exists before o after lic,
    ops = (before ++ o :: after)%list
    /\ answered_with o lic /\ LicenseKey.block lic = false
    /\ _license (exec config o (run config before self)) = Some lic.
Proof.
  revert self; induction ops as [|o ops IH]; intros self Hb Hf.
  - now elim Hb.
  - cbn [run fold_left] in Hf. fold (run config ops (exec config o self)) in Hf.
    destruct (option_eq_dec_false (blocked_flag (exec config o self))) as [Hs|Hs].
    + destruct (step_unblocks o self Hb Hs) as (lic & Ha & Hl & He).
      now exists [], o, ops, lic.
    + destruct (IH _ Hs Hf) as (before & o' & after & lic & -> & Ha & Hl & He).
      now exists (o :: before), o', after, lic.
Qed.

End Sticky.

(** C7: once the [block] flag of the cached record is true, a sequence of
    operations after which it is false contains a call that committed a
    record given by the server whose flag is false.  The queries leave
    the flag true, [status()] then starts no background refresh, and a
    refresh to which the server gives no record leaves it true, whether
    it raises or not. *)
Theorem blocked_is_sticky (config : Config) {sdk : Cryptolens}
    (ops : list op) (self : LicenseManager) :
  blocked_flag self = Some true ->
  (blocked_flag (run config ops self) = Some false ->
   exists before o after lic,
     ops = (before ++ o :: after)%list
     /\ answered_with o lic /\ LicenseKey.block lic = false
     /\ _license (exec config o (run config before self)) = Some lic)
  /\ (forall o, is_read o = true -> blocked_flag (exec config o self) = Some true)
  /\ (forall now, _should_refresh now self = false)
  /\ (forall Key_activate now w,
        fst (refresh_answer config Key_activate self) = None ->
        blocked_flag (exec config (Refresh Key_activate now w) self) = Some true)
  /\ (forall Key_activate now w e self',
        refresh config Key_activate now w self = (Raised e, self') -> self' = self).
Proof.
  intros Hb. split; [|split; [|split; [|split]]].
  - apply run_unblocks. congruence.
  - intros o Ho. now rewrite read_unchanged.
  - intros now. unfold _should_refresh. unfold blocked_flag in Hb.
    destruct (_license self) as [lic|]; [|discriminate].
    injection Hb as ->. now destruct (PyStr.otruthy _).
  - intros a now w Hnone. unfold exec. cbn [call].
    destruct (PyStr.otruthy (_license_string self)) eqn:Hk.
    2:{ now rewrite refresh_no_key. }
    destruct (PyStr.otruthy (LICENSE_ACCESS_TOKEN config)) eqn:Ht.
    2:{ now rewrite refresh_no_token. }
    destruct (PyStr.otruthy (LICENSE_RSA_PUBLIC_KEY config)) eqn:Hr.
    2:{ now rewrite refresh_no_rsa_key. }
    rewrite (refresh_calls_server config a now w self Hk Ht Hr). cbv zeta.
    rewrite Hnone.
    destruct (PyStr.contains _ _); [|exact Hb].
    destruct (_license self) as [existing|]; [reflexivity | exact Hb].
  - intros a now w e self' H.
    destruct (refresh_outcome config a now w self)
      as [(e' & H')|[(lic & _ & H')|(existing & _ & H')]];
      rewrite H' in H; congruence.
Qed.

Lemma blocked_is_sticky_witness :
  let ops := [GetStatus Sample.later Sample.later Sample.later;
              Refresh (Sample.answers (None, Some "Could not contact the server."))
                Sample.later Written;
              Refresh (Sample.answers (Some Sample.valid, None)) Sample.later Written] in
  blocked_flag Sample.revoked = Some true
  /\ blocked_flag (run Sample.config (sdk := Sample.sdk) ops Sample.revoked) = Some false
  /\ exists before o after lic,
       ops = (before ++ o :: after)%list
       /\ answered_with o lic /\ LicenseKey.block lic = false.
Proof.
  intros ops. split; [reflexivity|]. split; [reflexivity|].
  destruct (blocked_is_sticky Sample.config (sdk := Sample.sdk) ops Sample.revoked
              eq_refl) as [H _].
  destruct (H eq_refl) as (before & o & after & lic & E & Ha & Hl & _).
  now exists before, o, after, lic.
Defined.

(** ** The record and the key string *)

Section RecordAndKey.

Context (config : Config) {sdk : Cryptolens}.

Lemma init_record_iff_key (machine_code : string) (file : option string)
    (readable : bool) (now : datetime) :
  record_iff_key (__init__ config machine_code file readable now).
Proof.
  unfold record_iff_key, __init__, _load_state.
  cbv [bind get raise_if get_rsa_key raise ret modify try_except].
  cbn [storage_file].
  destruct file as [data|]; [|now cbn].
  destruct readable; cbn [negb]; [|now cbn].
  destruct (PyStr.truthy (PyStr.strip data)); [|now cbn].
  destruct (LICENSE_RSA_PUBLIC_KEY config) as [rsa|]; [|now cbn].
  destruct (PyStr.truthy rsa); [|now cbn].
  destruct (load_from_string rsa data 30 now) as [[lic|]|]; cbn; split; congruence.
Qed.

Lemma exec_record_iff_key (o : op) (self : LicenseManager) :
  record_iff_key self -> record_iff_key (exec config o self).
Proof.
  intros Hinv. unfold exec.
  destruct o as [k a n1 n2 w | a n w | u | n1 n2 n3 | n | n]; cbn [call];
    try exact Hinv.
  - destruct (activate_outcome config k a n1 n2 w self) as [(e & H)|(lic & _ & H)];
      rewrite H; cbn [snd]; [exact Hinv|].
    unfold record_iff_key. cbn. split; congruence.
  - destruct (refresh_outcome config a n w self)
      as [(e & H)|[(lic & _ & H)|(existing & He & H)]];
      rewrite H; cbn [snd]; [exact Hinv| |].
    + destruct (PyStr.otruthy (_license_string self)) eqn:Hk.
      * unfold record_iff_key. cbn.
        destruct (_license_string self); [split; congruence | discriminate].
      * rewrite (refresh_no_key config a n w self Hk) in H. discriminate.
    + unfold record_iff_key in *. cbn. rewrite He in Hinv.
      destruct (_license_string self); [split; congruence|].
      destruct Hinv as [_ Hinv]. now specialize (Hinv eq_refl).
  - destruct (deactivate_outcome u self) as [(e & H)|(file & H)];
      rewrite H; cbn [snd]; [exact Hinv|].
    now unfold record_iff_key.
Qed.

Lemma run_record_iff_key (ops : list op) (self : LicenseManager) :
  record_iff_key self -> record_iff_key (run config ops self).
Proof.
  revert self; induction ops as [|o ops IH]; intros self Hinv; [exact Hinv|].
  apply IH. now apply exec_record_iff_key.
Qed.

Lemma mask_key_none (k : string) : _mask_key (Some k) = None <-> k = "".
Proof.
  unfold _mask_key. destruct k as [|c k]; [now split|]. cbn [PyStr.truthy negb].
  destruct (_ <=? _); split; discriminate.
Qed.

End RecordAndKey.

(** Calls that run one after the other keep that a record object is
    cached exactly when a key string is: the construction of the manager,
    with what it loads from the file, and every call of [activate],
    [refresh], [deactivate] and of the queries.  [status()] reports
    [license_key] as [None] exactly when no record is cached or the key of
    the cached record is empty; masking a missing or an empty key gives
    [None], and never a string of stars. *)
Theorem record_iff_key_invariant (config : Config) {sdk : Cryptolens}
    (machine_code : string) (file : option string) (readable : bool)
    (now : datetime) (ops : list op) :
  let self := run config ops (__init__ config machine_code file readable now) in
  record_iff_key (__init__ config machine_code file readable now)
  /\ record_iff_key self
  /\ (forall o, record_iff_key (exec config o self))
  /\ (forall now_active now_reason,
        Status.license_key (status_dict config now_active now_reason self) = None
        <-> (_license self = None
             \/ exists lic, _license self = Some lic /\ LicenseKey.key lic = ""))
  /\ _mask_key None = None
  /\ _mask_key (Some "") = None.
Proof.
  intros self.
  assert (Hinit := init_record_iff_key config machine_code file readable now).
  assert (Hself : record_iff_key self) by now apply run_record_iff_key.
  repeat match goal with |- _ /\ _ => split end;
    try assumption; try reflexivity.
  - intros o. now apply exec_record_iff_key.
  - intros now_active now_reason. cbn [status_dict Status.license_key].
    destruct (_license self) as [lic|].
    + rewrite mask_key_none. split.
      * intros H. right. now exists lic.
      * intros [H|(l & [= <-] & H)]; [discriminate | exact H].
    + split; [now left | reflexivity].
Qed.

(** [refresh()] is its two sections, one after the other. *)
Lemma refresh_sections (config : Config) {sdk : Cryptolens}
    (Key_activate : Authority) (now : datetime) (w : write_outcome)
    (self : LicenseManager) :
  refresh config Key_activate now w self
  = (snapshot <- refresh_snapshot ;;
     refresh_commit config snapshot Key_activate now w) self.
Proof.
  unfold refresh, refresh_snapshot, refresh_commit.
  cbv [bind get ret raise_if raise].
  destruct (PyStr.otruthy (_license_string self)); cbn [negb]; [|reflexivity].
  destruct (negb (PyStr.otruthy (LICENSE_ACCESS_TOKEN config))); [reflexivity|].
  unfold get_rsa_key, raise, ret.
  destruct (LICENSE_RSA_PUBLIC_KEY config) as [k|]; [destruct (PyStr.truthy k)|];
    reflexivity.
Qed.

(** C10 fails in the code when [deactivate()] runs between the two
    sections of a [refresh()].  On an activated manager, the refresh takes
    its snapshot, [deactivate()] clears the record, the key string and the
    file, and the refresh then commits the record that the server
    returned: a record is cached and no key string is.  The file is
    written again and the product is active, while [deactivate()] and
    [refresh()] raise that no license has been activated.  [activate()]
    sets the key string with the record in its commit (l.183-184);
    the commit of [refresh()] (l.227-230) sets the record alone. *)
Theorem deactivate_during_refresh :
  let server := Sample.answers (Some Sample.valid, None) in
  let self := Sample.activated in
  let snapshot := ("ABCD-1234-EFGH-5678", Some Sample.valid) in
  let cleared := mkManager "machine-1" None None None None in
  let raced :=
    mkManager "machine-1" (Some Sample.valid) None (Some Sample.later)
      (Some (save_as_string (Cryptolens := Sample.sdk) Sample.valid)) in
  record_iff_key self
  /\ refresh_snapshot self = (Returned snapshot, self)
  /\ deactivate true self = (Returned tt, cleared)
  /\ refresh_commit Sample.config (sdk := Sample.sdk) snapshot server
       Sample.later Written cleared
     = (Returned tt, raced)
  /\ ~ record_iff_key raced
  /\ _is_active_unlocked (sdk := Sample.sdk) Sample.later raced = true
  /\ deactivate true raced = (Raised (LicenseError msg_not_activated), raced)
  /\ refresh Sample.config (sdk := Sample.sdk) server Sample.later Written raced
     = (Raised (LicenseError msg_not_activated), raced).
Proof.
  cbv zeta.
  split; [split; discriminate|].
  do 3 (split; [reflexivity|]).
  split; [intros [_ H]; specialize (H eq_refl); discriminate|].
  repeat split.
Qed.

(** ** Runs of the samples *)

Example mask_long : _mask_key (Some "ABCD-1234-EFGH-5678") = Some "***5678".
Proof. reflexivity. Qed.

Example mask_short : _mask_key (Some "AB") = Some "AB".
Proof. reflexivity. Qed.

Example mask_hyphen : _mask_key (Some "-") = Some "".
Proof. reflexivity. Qed.

Example isoformat_sample :
  PyDatetime.isoformat (PyDatetime.mk 2024 2 29 13 5 0 0) = "2024-02-29T13:05:00".
Proof. reflexivity. Qed.

Example sub_sample :
  PyDatetime.sub (PyDatetime.mk 2024 3 1 0 0 0 0) (PyDatetime.mk 2024 2 28 23 0 0 0)
  = (86400 + 3600) * 1000000.
Proof. reflexivity. Qed.

Example strip_sample : PyStr.strip "  a b  " = "a b".
Proof. reflexivity. Qed.

Example activated_is_active :
  _is_active_unlocked (sdk := Sample.sdk) Sample.later Sample.activated = true.
Proof. reflexivity. Qed.

Example deactivated_is_fresh :
  deactivate true Sample.activated = (Returned tt, Sample.fresh).
Proof. reflexivity. Qed.

(** * Further properties of the manager *)

(** ** Deactivation *)

(** With a key cached, [deactivate()] returns and clears the record, the
    key and the time of the last refresh; the file is gone when [unlink]
    succeeded and is as before when it failed.  The manager is then the
    one of a product that was never activated. *)
Theorem deactivate_clears (config : Config) {sdk : Cryptolens}
    (unlinked : bool) (self : LicenseManager) :
  PyStr.otruthy (_license_string self) = true ->
  exists self',
    deactivate unlinked self = (Returned tt, self')
    /\ self' = mkManager (_machine_code self) None None None
                 (if unlinked then None else storage_file self)
    /\ (forall now, _is_active_unlocked now self' = false)
    /\ (forall now, _inactive_reason_unlocked now self' = msg_unactivated)
    /\ (forall now, _should_refresh now self' = false)
    /\ (forall Key_activate now w,
          refresh config Key_activate now w self'
          = (Raised (LicenseError msg_not_activated), self'))
    /\ (forall again,
          deactivate again self' = (Raised (LicenseError msg_not_activated), self')).
Proof.
  intros Hk.
  exists (mkManager (_machine_code self) None None None
            (if unlinked then None else storage_file self)).
  split; [|split; [reflexivity | now repeat split]].
  step_method. rewrite Hk. cbn.
  destruct (storage_file self) eqn:Hf; destruct unlinked;
    unfold set_storage_file, set_last_refresh, set_license_string, set_license;
    cbn; now rewrite ?Hf.
Qed.

Lemma deactivate_clears_witness :
  PyStr.otruthy (_license_string Sample.activated) = true
  /\ deactivate false Sample.activated
     = (Returned tt,
        mkManager "machine-1" None None None (Some "ABCD-1234-EFGH-5678:ok")).
Proof.
  split; [reflexivity|].
  destruct (deactivate_clears Sample.config (sdk := Sample.sdk) false Sample.activated
              eq_refl) as (self' & H & -> & _).
  exact H.
Defined.

(** ** Construction from the file *)

(** What the constructor leaves, by what the file and the SDK give. *)
Lemma init_cases (config : Config) {sdk : Cryptolens}
    (machine_code : string) (file : option string) (readable : bool)
    (now : datetime) :
  let m := __init__ config machine_code file readable now in
  (m = mkManager machine_code None None None file
   /\ forall data rsa lic,
        file = Some data -> readable = true -> PyStr.strip data <> "" ->
        LICENSE_RSA_PUBLIC_KEY config = Some rsa -> rsa <> "" ->
        load_from_string rsa data 30 now <> Some (Some lic))
  \/ (exists data rsa lic,
        file = Some data /\ readable = true /\ PyStr.strip data <> ""
        /\ LICENSE_RSA_PUBLIC_KEY config = Some rsa /\ rsa <> ""
        /\ load_from_string rsa data 30 now = Some (Some lic)
        /\ m = mkManager machine_code (Some lic) (Some (LicenseKey.key lic)) None file).
Proof.
  unfold __init__, _load_state.
  cbv [bind get raise_if get_rsa_key raise ret modify try_except].
  cbn [storage_file].
  destruct file as [data|].
  2:{ left. split; [reflexivity | discriminate]. }
  destruct readable; cbn [negb].
  2:{ left. split; [reflexivity | discriminate]. }
  destruct (PyStr.strip data) as [|c rest] eqn:Hs; cbn [PyStr.truthy].
  { left. split; [reflexivity|]. intros d r l [= <-] _ H. now rewrite Hs in H. }
  destruct (LICENSE_RSA_PUBLIC_KEY config) as [rsa|] eqn:Hr.
  2:{ left. split; [reflexivity | discriminate]. }
  destruct rsa as [|c' rsa']; cbn [PyStr.truthy].
  { left. split; [reflexivity|]. intros d r l _ _ _ [= <-] H. now elim H. }
  destruct (load_from_string (String c' rsa') data 30 now) as [[loaded|]|] eqn:Hl.
  - right. exists data, (String c' rsa'), loaded.
    repeat split; try assumption; try discriminate. now rewrite Hs.
  - left. split; [reflexivity|]. intros d r l [= <-] _ _ [= <-] _. congruence.
  - left. split; [reflexivity|]. intros d r l [= <-] _ _ [= <-] _. congruence.
Qed.



(** A record read from the file is refreshed at the first [status()]:
    the constructor leaves the time of the last refresh unset, so the
    policy asks for a refresh whatever the clock says, unless the record
    is blocked or its key is empty. *)
Theorem loaded_record_refreshes_at_once (config : Config) {sdk : Cryptolens}
    (machine_code : string) (file : option string) (readable : bool)
    (t0 now : datetime) (lic : LicenseKey.t) :
  let m := __init__ config machine_code file readable t0 in
  _license m = Some lic ->
  _should_refresh now m
  = negb (LicenseKey.block lic) && PyStr.truthy (LicenseKey.key lic).
Proof.
  intros m Hlic.
  destruct (init_cases config machine_code file readable t0)
    as [[Hm _] | (data & rsa & loaded & _ & _ & _ & _ & _ & _ & Hm)];
    fold m in Hm; rewrite Hm in *; cbn in Hlic; [discriminate|].
  injection Hlic as ->. unfold _should_refresh. cbn.
  destruct (PyStr.truthy (LicenseKey.key lic)); cbn;
    destruct (LicenseKey.block lic); reflexivity.
Qed.

(** ** What the methods do to the manager *)

Section Methods.

Context (config : Config) {sdk : Cryptolens}.

(** [activate] raises a [LicenseError] and changes nothing, or returns
    and has committed the record of the answer, which is bound to this
    machine and not expired. *)
Lemma activate_result (license_key : option string) (Key_activate : Authority)
    (now_expiry now_commit : datetime) (w : write_outcome) (self : LicenseManager) :
  let run := activate config license_key Key_activate now_expiry now_commit w self in
  (exists msg, run = (Raised (LicenseError msg), self))
  \/ (exists lic,
        fst (activate_answer config Key_activate license_key self) = Some lic
        /\ IsOnRightMachine lic = true
        /\ expired now_expiry lic = false
        /\ run = (Returned tt, committed lic now_commit w self)).
Proof.
  intros run. subst run.
  destruct (string_dec (sent_key license_key) "") as [Hk|Hk].
  { left. eexists. now apply activate_empty_key. }
  destruct (PyStr.otruthy (LICENSE_ACCESS_TOKEN config)) eqn:Ht.
  2:{ left. eexists. now apply activate_no_token. }
  destruct (PyStr.otruthy (LICENSE_RSA_PUBLIC_KEY config)) eqn:Hr.
  2:{ left. eexists. now apply activate_no_rsa_key. }
  rewrite (activate_calls_server config license_key Key_activate
             now_expiry now_commit w self Hk Ht Hr).
  cbv zeta.
  destruct (fst (activate_answer config Key_activate license_key self)) as [lic|];
    [|left; now eexists].
  destruct (IsOnRightMachine lic) eqn:Hm; cbn [negb]; [|left; now eexists].
  unfold expired.
  destruct (LicenseKey.expires lic) as [e|] eqn:He.
  - destruct (PyDatetime.ltb e now_expiry) eqn:Hlt; [left; now eexists|].
    right. exists lic. now rewrite He, Hlt.
  - right. exists lic. now rewrite He.
Qed.

(** [refresh] raises a [LicenseError] and changes nothing, or returns and
    has committed the record of the answer, or returns and has set the
    [block] flag of the cached record. *)
Lemma refresh_result (Key_activate : Authority) (now : datetime)
    (w : write_outcome) (self : LicenseManager) :
  let run := refresh config Key_activate now w self in
  (exists msg, run = (Raised (LicenseError msg), self))
  \/ (exists lic,
        fst (refresh_answer config Key_activate self) = Some lic
        /\ run = (Returned tt, refreshed lic now w self))
  \/ (exists existing,
        fst (refresh_answer config Key_activate self) = None
        /\ _license self = Some existing
        /\ run = (Returned tt,
                  refreshed (LicenseKey.set_block true existing) now w self)).
Proof.
  intros run. subst run.
  destruct (PyStr.otruthy (_license_string self)) eqn:Hk.
  2:{ left. eexists. now apply refresh_no_key. }
  destruct (PyStr.otruthy (LICENSE_ACCESS_TOKEN config)) eqn:Ht.
  2:{ left. eexists. now apply refresh_no_token. }
  destruct (PyStr.otruthy (LICENSE_RSA_PUBLIC_KEY config)) eqn:Hr.
  2:{ left. eexists. now apply refresh_no_rsa_key. }
  rewrite (refresh_calls_server config Key_activate now w self Hk Ht Hr).
  cbv zeta.
  destruct (fst (refresh_answer config Key_activate self)) as [lic|].
  - right; left. now exists lic.
  - destruct (PyStr.contains _ _); [|left; now eexists].
    destruct (_license self) as [existing|]; [|left; now eexists].
    right; right. now exists existing.
Qed.

Lemma deactivate_result (unlinked : bool) (self : LicenseManager) :
  let run := deactivate unlinked self in
  (run = (Raised (LicenseError msg_not_activated), self)
   /\ PyStr.otruthy (_license_string self) = false)
  \/ (run = (Returned tt, mkManager (_machine_code self) None None None
                            (if unlinked then None else storage_file self))
      /\ PyStr.otruthy (_license_string self) = true).
Proof.
  intros run. subst run. step_method.
  destruct (PyStr.otruthy (_license_string self)); cbn [negb].
  - right. split; [|reflexivity].
    destruct (storage_file self) eqn:Hf; destruct unlinked;
      unfold set_storage_file, set_last_refresh, set_license_string, set_license;
      cbn; now rewrite ?Hf.
  - left. now split.
Qed.

End Methods.

(** [deactivate_fs] is [deactivate] when [exists()] answers. *)
Lemma deactivate_fs_answers (unlinked : bool) (self : LicenseManager) :
  deactivate_fs (ExistsAnswers unlinked) self = deactivate unlinked self.
Proof. reflexivity. Qed.

(** [deactivate()] whose [exists()] raises: the error leaves the method
    once the state is cleared. *)
Lemma deactivate_fs_raises (self : LicenseManager) :
  PyStr.otruthy (_license_string self) = true ->
  deactivate_fs ExistsRaises self
  = (Raised OtherException,
     mkManager (_machine_code self) None None None (storage_file self)).
Proof.
  intros Hk. unfold deactivate_fs. cbv [bind get raise_if raise ret modify].
  now rewrite Hk.
Qed.



(** ** The file and the memory *)

(** Whether the record can be written to the file changes neither what
    [activate()] and [refresh()] return or raise nor what they leave in
    memory: a write that fails is not reported and does not undo the
    commit.  Only the file differs. *)
Theorem write_outcome_is_silent (config : Config) {sdk : Cryptolens}
    (license_key : option string) (Key_activate : Authority)
    (now_expiry now_commit : datetime) (w1 w2 : write_outcome)
    (self : LicenseManager) :
  let a1 := activate config license_key Key_activate now_expiry now_commit w1 self in
  let a2 := activate config license_key Key_activate now_expiry now_commit w2 self in
  let r1 := refresh config Key_activate now_commit w1 self in
  let r2 := refresh config Key_activate now_commit w2 self in
  fst a1 = fst a2
  /\ set_storage_file None (snd a1) = set_storage_file None (snd a2)
  /\ fst r1 = fst r2
  /\ set_storage_file None (snd r1) = set_storage_file None (snd r2).
Proof.
  cbv zeta. split; [|split; [|split]].
  1,2: destruct (string_dec (sent_key license_key) "") as [Hk|Hk];
    [now rewrite !activate_empty_key|];
    destruct (PyStr.otruthy (LICENSE_ACCESS_TOKEN config)) eqn:Ht;
    [|now rewrite !activate_no_token];
    destruct (PyStr.otruthy (LICENSE_RSA_PUBLIC_KEY config)) eqn:Hr;
    [|now rewrite !activate_no_rsa_key];
    rewrite !(activate_calls_server config license_key Key_activate
                now_expiry now_commit _ self Hk Ht Hr);
    cbv zeta;
    destruct (fst (activate_answer config Key_activate license_key self)) as [lic|];
    [|reflexivity];
    destruct (IsOnRightMachine lic); cbn [negb]; [|reflexivity];
    destruct (LicenseKey.expires lic) as [e|];
    [destruct (PyDatetime.ltb e now_expiry)|]; reflexivity.
  1,2: destruct (PyStr.otruthy (_license_string self)) eqn:Hk;
    [|now rewrite !refresh_no_key];
    destruct (PyStr.otruthy (LICENSE_ACCESS_TOKEN config)) eqn:Ht;
    [|now rewrite !refresh_no_token];
    destruct (PyStr.otruthy (LICENSE_RSA_PUBLIC_KEY config)) eqn:Hr;
    [|now rewrite !refresh_no_rsa_key];
    rewrite !(refresh_calls_server config Key_activate now_commit _ self Hk Ht Hr);
    cbv zeta;
    destruct (fst (refresh_answer config Key_activate self)) as [lic|];
    [reflexivity|];
    destruct (PyStr.contains _ _); [|reflexivity];
    destruct (_license self); reflexivity.
Qed.

(** ** The server *)

(** [activate()] does not depend on the server when the trimmed key is
    empty or the access token or the RSA key is not configured, nor does
    [refresh()] when no key is cached or the configuration is missing:
    the call is decided before the server is asked. *)
Theorem no_server_contact (config : Config) {sdk : Cryptolens}
    (license_key : option string) (server1 server2 : Authority)
    (now_expiry now_commit : datetime) (w : write_outcome) (self : LicenseManager) :
  let unconfigured :=
    PyStr.otruthy (LICENSE_ACCESS_TOKEN config) = false
    \/ PyStr.otruthy (LICENSE_RSA_PUBLIC_KEY config) = false in
  (sent_key license_key = "" \/ unconfigured ->
   activate config license_key server1 now_expiry now_commit w self
   = activate config license_key server2 now_expiry now_commit w self)
  /\ (PyStr.otruthy (_license_string self) = false \/ unconfigured ->
      refresh config server1 now_commit w self
      = refresh config server2 now_commit w self).
Proof.
  cbv zeta. split; intros H.
  - destruct (string_dec (sent_key license_key) "") as [Hk|Hk];
      [now rewrite !activate_empty_key|].
    destruct (PyStr.otruthy (LICENSE_ACCESS_TOKEN config)) eqn:Ht;
      [|now rewrite !activate_no_token].
    destruct (PyStr.otruthy (LICENSE_RSA_PUBLIC_KEY config)) eqn:Hr;
      [|now rewrite !activate_no_rsa_key].
    destruct H as [H|[H|H]]; congruence.
  - destruct (PyStr.otruthy (_license_string self)) eqn:Hk;
      [|now rewrite !refresh_no_key].
    destruct (PyStr.otruthy (LICENSE_ACCESS_TOKEN config)) eqn:Ht;
      [|now rewrite !refresh_no_token].
    destruct (PyStr.otruthy (LICENSE_RSA_PUBLIC_KEY config)) eqn:Hr;
      [|now rewrite !refresh_no_rsa_key].
    destruct H as [H|[H|H]]; congruence.
Qed.

Lemma no_server_contact_witness :
  activate Sample.config (sdk := Sample.sdk) (Some "  ")
    (Sample.answers (Some Sample.valid, None)) Sample.noon Sample.noon Written
    Sample.fresh
  = activate Sample.config (sdk := Sample.sdk) (Some "  ")
      (Sample.answers (None, Some "no")) Sample.noon Sample.noon Written Sample.fresh
  /\ refresh Sample.config (sdk := Sample.sdk)
       (Sample.answers (Some Sample.valid, None)) Sample.noon Written Sample.fresh
     = refresh Sample.config (sdk := Sample.sdk)
         (Sample.answers (None, Some "no")) Sample.noon Written Sample.fresh.
Proof.
  destruct (no_server_contact Sample.config (sdk := Sample.sdk) (Some "  ")
              (Sample.answers (Some Sample.valid, None))
              (Sample.answers (None, Some "no"))
              Sample.noon Sample.noon Written Sample.fresh) as [Ha Hr].
  split; [apply Ha | apply Hr]; now left.
Defined.

(** ** After a commit *)

(** [activate()] tests the machine and the expiry of the returned
    record, and not its [block] flag: once it has returned, the manager is
    active at a later time exactly when the committed record is not
    blocked and has not expired by then. *)
Theorem activated_record_activity (config : Config) {sdk : Cryptolens}
    (license_key : option string) (Key_activate : Authority)
    (now_expiry now_commit : datetime) (w : write_outcome)
    (self self' : LicenseManager) :
  activate config license_key Key_activate now_expiry now_commit w self
  = (Returned tt, self') ->
  exists lic,
    fst (activate_answer config Key_activate license_key self) = Some lic
    /\ _license self' = Some lic
    /\ _license_string self' = Some (LicenseKey.key lic)
    /\ IsOnRightMachine lic = true
    /\ expired now_expiry lic = false
    /\ forall now,
         _is_active_unlocked now self'
         = negb (LicenseKey.block lic) && negb (expired now lic).
Proof.
  intros H.
  destruct (activate_result config license_key Key_activate now_expiry now_commit
              w self) as [(msg & H')|(lic & Ha & Hm & He & H')];
    rewrite H' in H; [discriminate|].
  injection H as <-. exists lic. repeat split; try assumption.
  intros now. unfold _is_active_unlocked. cbn.
  rewrite Hm. destruct (LicenseKey.block lic), (expired now lic); reflexivity.
Qed.

Lemma activated_record_activity_witness :
  let blocked := Sample.record "K" None true in
  exists self',
    activate Sample.config (sdk := Sample.sdk) (Some "K")
      (Sample.answers (Some blocked, None)) Sample.noon Sample.noon Written
      Sample.fresh
    = (Returned tt, self')
    /\ _is_active_unlocked (sdk := Sample.sdk) Sample.later self' = false.
Proof.
  intros blocked.
  exists (committed (sdk := Sample.sdk) blocked Sample.noon Written Sample.fresh).
  split; [reflexivity|].
  destruct (activated_record_activity Sample.config (sdk := Sample.sdk) (Some "K")
              (Sample.answers (Some blocked, None)) Sample.noon Sample.noon Written
              Sample.fresh _ eq_refl) as (lic & Ha & _ & _ & _ & _ & H).
  rewrite H. injection Ha as <-. reflexivity.
Defined.

(** [refresh()] that returns commits the record as the server gave it,
    bound to this machine or not, expired or not, and leaves the cached
    key string as it was: the next refresh asks the server for the same
    key, whatever the key of the new record. *)
Theorem refresh_keeps_key_string (config : Config) {sdk : Cryptolens}
    (Key_activate : Authority) (now : datetime) (w : write_outcome)
    (self self' : LicenseManager) :
  refresh config Key_activate now w self = (Returned tt, self') ->
  _license_string self' = _license_string self
  /\ _machine_code self' = _machine_code self
  /\ _last_refresh self' = Some now
  /\ (forall server, refresh_answer config server self'
                     = refresh_answer config server self)
  /\ (forall lic,
        fst (refresh_answer config Key_activate self) = Some lic ->
        _license self' = Some lic).
Proof.
  intros H.
  destruct (refresh_result config Key_activate now w self)
    as [(msg & H')|[(lic & Ha & H')|(existing & Ha & He & H')]];
    rewrite H' in H; [discriminate| |]; injection H as <-;
    repeat split; try reflexivity; intros l Hl; cbn; congruence.
Qed.

Lemma refresh_keeps_key_string_witness :
  let other := Sample.record "ANOTHER-KEY" None false in
  exists self',
    refresh Sample.config (sdk := Sample.sdk) (Sample.answers (Some other, None))
      Sample.later Written Sample.activated
    = (Returned tt, self')
    /\ _license self' = Some other
    /\ _license_string self' = Some "ABCD-1234-EFGH-5678".
Proof.
  intros other.
  exists (refreshed (sdk := Sample.sdk) other Sample.later Written Sample.activated).
  split; [reflexivity|].
  destruct (refresh_keeps_key_string Sample.config (sdk := Sample.sdk)
              (Sample.answers (Some other, None)) Sample.later Written
              Sample.activated _ eq_refl) as (Hk & _ & _ & _ & Hl).
  split; [now apply Hl | exact Hk].
Defined.

(** Once [activate()] has returned, [deactivate()] whose [unlink]
    succeeds brings the manager back to the state of a product that was
    never activated, with no file, provided the key of the committed
    record is not empty.  A record whose key is empty can be neither
    deactivated nor refreshed: both methods raise as if nothing were
    cached. *)
Theorem activate_then_deactivate (config : Config) {sdk : Cryptolens}
    (license_key : option string) (Key_activate : Authority)
    (now_expiry now_commit : datetime) (w : write_outcome)
    (self self' : LicenseManager) :
  activate config license_key Key_activate now_expiry now_commit w self
  = (Returned tt, self') ->
  exists lic,
    _license self' = Some lic
    /\ (LicenseKey.key lic <> "" ->
        deactivate true self'
        = (Returned tt, mkManager (_machine_code self) None None None None))
    /\ (LicenseKey.key lic = "" ->
        forall unlinked server now w',
          deactivate unlinked self'
          = (Raised (LicenseError msg_not_activated), self')
          /\ refresh config server now w' self'
             = (Raised (LicenseError msg_not_activated), self')).
Proof.
  intros H.
  destruct (activate_result config license_key Key_activate now_expiry now_commit
              w self) as [(msg & H')|(lic & _ & _ & _ & H')];
    rewrite H' in H; [discriminate|].
  injection H as <-. exists lic. split; [reflexivity|]. split.
  - intros Hk.
    destruct (deactivate_result true (committed lic now_commit w self))
      as [[_ Hf]|[Hd _]].
    + cbn in Hf. destruct (LicenseKey.key lic); [now elim Hk | discriminate].
    + exact Hd.
  - intros Hk unlinked server now w'. split.
    + destruct (deactivate_result unlinked (committed lic now_commit w self))
        as [[Hd _]|[_ Hf]]; [exact Hd|].
      cbn in Hf. rewrite Hk in Hf. discriminate.
    + apply refresh_no_key. cbn. now rewrite Hk.
Qed.

Lemma activate_then_deactivate_witness :
  deactivate true Sample.activated
  = (Returned tt, mkManager "machine-1" None None None None)
  /\ deactivate true Sample.keyless_activated
     = (Raised (LicenseError msg_not_activated), Sample.keyless_activated).
Proof.
  split.
  - destruct (activate_then_deactivate Sample.config (sdk := Sample.sdk)
                (Some " ABCD-1234-EFGH-5678 ") (Sample.answers (Some Sample.valid, None))
                Sample.noon Sample.noon Written Sample.fresh Sample.activated eq_refl)
      as (lic & Hl & H & _).
    injection Hl as <-. apply H. discriminate.
  - destruct (activate_then_deactivate Sample.config (sdk := Sample.sdk)
                (Some "KEY") (Sample.answers (Some Sample.keyless, None))
                Sample.noon Sample.noon Written Sample.fresh Sample.keyless_activated
                eq_refl) as (lic & Hl & _ & H).
    injection Hl as <-.
    apply (H eq_refl true (Sample.answers (None, None)) Sample.noon Written).
Defined.

(** ** The reason given to an inactive product *)

Lemma lex_ltb_between (xs ys zs : list Z) :
  List.length xs = List.length ys -> List.length zs = List.length ys ->
  PyDatetime.lex_ltb xs ys = true -> PyDatetime.lex_ltb zs ys = false ->
  PyDatetime.lex_ltb xs zs = true.
Proof.
  revert ys zs; induction xs as [|x xs IH]; intros [|y ys] [|z zs];
    cbn; try discriminate.
  intros [= Hx] [= Hz] Hlt Hge.
  destruct (Z.ltb_spec x y), (Z.ltb_spec z y), (Z.ltb_spec x z),
    (Z.eqb_spec x y), (Z.eqb_spec z y), (Z.eqb_spec x z);
    cbn in *; try lia; try discriminate; try reflexivity.
  now apply (IH ys zs).
Qed.

(** What expired before a reading of the clock has expired at every
    reading that is not before it. *)
Lemma expired_later (e earlier later : datetime) :
  PyDatetime.ltb e earlier = true -> PyDatetime.ltb later earlier = false ->
  PyDatetime.ltb e later = true.
Proof.
  intros H1 H2. apply (lex_ltb_between _ (PyDatetime.fields earlier)); auto.
Qed.

Section Reasons.

Context {sdk : Cryptolens}.

(** The reason read at [now_reason], for a manager that was not active
    at [now_active], when the clock has not gone back in between. *)
Lemma reason_is_specific (now_active now_reason : datetime) (self : LicenseManager) :
  PyDatetime.ltb now_reason now_active = false ->
  _is_active_unlocked now_active self = false ->
  let r := _inactive_reason_unlocked now_reason self in
  r = msg_unactivated \/ r = msg_blocked \/ r = msg_wrong_machine
  \/ exists e lic,
       _license self = Some lic /\ LicenseKey.expires lic = Some e
       /\ r = "Your license expired on " ++ PyDatetime.strftime_Ymd e ++ ".".
Proof.
  intros Hclock. unfold _is_active_unlocked, _inactive_reason_unlocked, expired.
  destruct (_license self) as [lic|]; [|now left].
  destruct (LicenseKey.block lic); [now right; left|].
  destruct (LicenseKey.expires lic) as [e|] eqn:He.
  - destruct (PyDatetime.ltb e now_active) eqn:Ha.
    + rewrite (expired_later e now_active now_reason Ha Hclock).
      intros _. right; right; right. now exists e, lic.
    + destruct (PyDatetime.ltb e now_reason).
      * intros _. right; right; right. now exists e, lic.
      * intros ->. now right; right; left.
  - intros ->. now right; right; left.
Qed.

End Reasons.

(** At one reading of the clock, the manager is active exactly when its
    reason of inactivity is the text that no case explains,
    ["BeatChecker is not activated."]: a manager that is not active gets
    one of the four reasons that say why. *)
Theorem active_iff_generic_reason {sdk : Cryptolens} (now : datetime)
    (self : LicenseManager) :
  _is_active_unlocked now self = true
  <-> _inactive_reason_unlocked now self = msg_generic.
Proof.
  unfold _is_active_unlocked, _inactive_reason_unlocked, expired.
  destruct (_license self) as [lic|]; [|split; discriminate].
  destruct (LicenseKey.block lic); [split; discriminate|].
  destruct (LicenseKey.expires lic) as [e|].
  - destruct (PyDatetime.ltb e now); [split; discriminate|].
    destruct (IsOnRightMachine lic); split; try discriminate; reflexivity.
  - destruct (IsOnRightMachine lic); split; try discriminate; reflexivity.
Qed.

(** [status()] and [health_check()] read the clock once to tell whether
    the product is active and once more for the message.  When the clock
    has not gone back between the two readings, an inactive product is
    given one of the four reasons that say why (never the text of no
    case), and an active one no message. *)
Theorem inactive_message_says_why (config : Config) {sdk : Cryptolens}
    (now_active now_reason : datetime) (self : LicenseManager) :
  PyDatetime.ltb now_reason now_active = false ->
  let d := status_dict config now_active now_reason self in
  let specific r :=
    r = msg_unactivated \/ r = msg_blocked \/ r = msg_wrong_machine
    \/ exists e lic,
         _license self = Some lic /\ LicenseKey.expires lic = Some e
         /\ r = "Your license expired on " ++ PyDatetime.strftime_Ymd e ++ "." in
  (Status.active d = true -> Status.message d = None)
  /\ (Status.active d = false -> exists r, Status.message d = Some r /\ specific r)
  /\ exists h,
       Service.health_check now_active now_reason self = (Returned h, self)
       /\ Service.health_status h = "ok"
       /\ Service.license_active h = Status.active d
       /\ Service.message h = Status.message d.
Proof.
  intros Hclock d specific. subst d specific. cbn [status_dict Status.active Status.message].
  split; [|split].
  - now intros ->.
  - intros H. rewrite H. eexists. split; [reflexivity|].
    exact (reason_is_specific now_active now_reason self Hclock H).
  - cbv [Service.health_check is_active inactive_reason bind get ret].
    destruct (_is_active_unlocked now_active self); eexists; now repeat split.
Qed.

Lemma inactive_message_says_why_witness :
  let self := Sample.holding Sample.lapsed in
  PyDatetime.ltb Sample.later Sample.noon = false
  /\ Status.message (status_dict Sample.config (sdk := Sample.sdk)
                       Sample.noon Sample.later self)
     = Some "Your license expired on 2023-12-31.".
Proof.
  intros self. split; [reflexivity|].
  destruct (inactive_message_says_why Sample.config (sdk := Sample.sdk)
              Sample.noon Sample.later self eq_refl) as (_ & H & _).
  destruct (H eq_refl) as (r & Hr & _).
  pose proof Hr as Hr'. vm_compute in Hr'. injection Hr' as <-. exact Hr.
Defined.

(** * Properties of the helpers of [download.py] *)

(** ** A name that is free *)

Section UniquePath.
Import Download.

Lemma app_inv_head_string (a x y : string) : a ++ x = a ++ y -> x = y.
Proof. induction a as [|c a IH]; cbn; [easy|]. intros [= H]. now apply IH. Qed.

Lemma app_inv_same_length (a b s t : string) :
  String.length a = String.length b -> a ++ s = b ++ t -> a = b /\ s = t.
Proof.
  revert b; induction a as [|c a IH]; intros [|d b]; cbn; try discriminate.
  - now intros _ ->.
  - intros [= Hl] [= -> H]. destruct (IH b Hl H) as [-> ->]. now split.
Qed.

Lemma app_inv_tail_string (a b s : string) : a ++ s = b ++ s -> a = b.
Proof.
  intros H. apply (app_inv_same_length a b s s); [|exact H].
  apply (f_equal String.length) in H. rewrite !length_app in H. lia.
Qed.

Lemma str_of_nat_inj (a b : nat) : str_of_nat a = str_of_nat b -> a = b.
Proof.
  unfold str_of_nat. intros H. apply Unsigned.to_uint_inj.
  apply (f_equal NilEmpty.uint_of_string) in H.
  rewrite !NilEmpty.usu in H. now injection H.
Qed.

Lemma numbered_inj (stem suffix : string) (j k : nat) :
  numbered stem suffix j = numbered stem suffix k -> j = k.
Proof.
  unfold numbered. intros H.
  apply app_inv_head_string in H. cbn in H. injection H as H.
  apply app_inv_tail_string in H. now apply str_of_nat_inj.
Qed.

Lemma numbered_not_plain (stem suffix : string) (j : nat) :
  numbered stem suffix j <> stem ++ suffix.
Proof.
  unfold numbered. intros H. apply app_inv_head_string in H.
  apply (f_equal String.length) in H. cbn in H. rewrite length_app in H. lia.
Qed.

Variable exists_ : string -> bool.
Variables stem suffix : string.
Variable files : list string.
Hypothesis finite : forall name, exists_ name = true -> In name files.

(** The loop ends, within as many tests as there are files and one more,
    on a name that does not exist: its first candidate, or the numbered
    name of the least index that is free. *)
Lemma unique_loop_ends (first : string) :
  (forall j, numbered stem suffix j <> first) ->
  forall (fuel index : nat) (candidate : string) (seen : list string),
    NoDup (candidate :: seen) ->
    (forall x, In x seen -> exists_ x = true) ->
    (forall x, In x (candidate :: seen) ->
       x = first \/ exists j, (j < index)%nat /\ x = numbered stem suffix j) ->
    (List.length files < fuel + List.length seen)%nat ->
    exists name,
      unique_loop exists_ stem suffix fuel candidate index = Some name
      /\ exists_ name = false
      /\ (name = candidate
          \/ (exists_ candidate = true
              /\ exists k,
                   (index <= k)%nat /\ name = numbered stem suffix k
                   /\ forall j, (index <= j < k)%nat ->
                                exists_ (numbered stem suffix j) = true)).
Proof.
  intros Hfirst. induction fuel as [|fuel IH]; intros index candidate seen Hnd Hex Hsh Hlen.
  - exfalso. apply NoDup_cons_iff in Hnd. destruct Hnd as [_ Hnd].
    assert (List.length seen <= List.length files)%nat.
    { apply NoDup_incl_length; [exact Hnd|]. intros x Hx. apply finite. now apply Hex. }
    cbn in Hlen. lia.
  - cbn [unique_loop]. destruct (exists_ candidate) eqn:Hc.
    2:{ exists candidate. split; [reflexivity|]. split; [exact Hc | now left]. }
    destruct (IH (S index) (numbered stem suffix index) (candidate :: seen))
      as (name & Hrun & Hfree & Hname).
    + constructor; [|exact Hnd].
      intros Hin. destruct (Hsh _ Hin) as [H|(j & Hj & H)].
      * now apply Hfirst in H.
      * apply numbered_inj in H. lia.
    + intros x [<-|Hx]; [exact Hc | now apply Hex].
    + intros x [<-|Hx].
      * right. exists index. split; [lia | reflexivity].
      * destruct (Hsh _ Hx) as [H|(j & Hj & H)]; [now left|].
        right. exists j. split; [lia | exact H].
    + cbn [List.length]. lia.
    + exists name. split; [exact Hrun|]. split; [exact Hfree|]. right.
      split; [reflexivity|].
      destruct Hname as [->|(Hi & k & Hk & -> & Hall)].
      * exists index. split; [lia|]. split; [reflexivity|]. intros j Hj. lia.
      * exists k. split; [lia|]. split; [reflexivity|]. intros j Hj.
        destruct (Nat.eq_dec j index) as [->|Hne]; [exact Hi|]. apply Hall. lia.
Qed.

End UniquePath.

(** [_make_unique_path] returns, in a directory of finitely many files,
    after at most one test more than there are files; the name that it
    returns does not exist; it is [stem + suffix] when that is free, and
    otherwise [stem_k suffix] for the least [k >= 1] that is free. *)
Theorem make_unique_path_is_free (exists_ : string -> bool) (stem suffix : string)
    (files : list string) (fuel : nat) :
  (forall name, exists_ name = true -> In name files) ->
  (List.length files < fuel)%nat ->
  exists name,
    Download._make_unique_path exists_ stem suffix fuel = Some name
    /\ exists_ name = false
    /\ (exists_ (stem ++ suffix) = false -> name = stem ++ suffix)
    /\ (exists_ (stem ++ suffix) = true ->
        exists k,
          (1 <= k)%nat /\ name = Download.numbered stem suffix k
          /\ forall j, (1 <= j < k)%nat ->
                       exists_ (Download.numbered stem suffix j) = true).
Proof.
  intros Hfin Hfuel.
  destruct (unique_loop_ends exists_ stem suffix files Hfin (stem ++ suffix)
              (numbered_not_plain stem suffix) fuel 1 (stem ++ suffix) [])
    as (name & Hrun & Hfree & Hname).
  - constructor; [easy | constructor].
  - easy.
  - intros x [<-|[]]. now left.
  - cbn. lia.
  - exists name. split; [exact Hrun|]. split; [exact Hfree|]. split.
    + intros Hno. destruct Hname as [->|(Hyes & _)]; [reflexivity | congruence].
    + intros Hyes. destruct Hname as [->|(_ & k & Hk & -> & Hall)]; [congruence|].
      now exists k.
Qed.

Lemma make_unique_path_is_free_witness :
  let files := ["beat.mp3"; "beat_1.mp3"; "other.mp3"] in
  let exists_ name := existsb (String.eqb name) files in
  Download._make_unique_path exists_ "beat" ".mp3" 4 = Some "beat_2.mp3"
  /\ exists name,
       Download._make_unique_path exists_ "beat" ".mp3" 4 = Some name
       /\ exists_ name = false.
Proof.
  intros files exists_. split; [reflexivity|].
  destruct (make_unique_path_is_free exists_ "beat" ".mp3" files 4)
    as (name & Hrun & Hfree & _).
  - intros name H. apply existsb_exists in H. destruct H as (x & Hx & E).
    apply String.eqb_eq in E. now subst.
  - cbn. lia.
  - now exists name.
Defined.

(** ** The paths without repeats *)

Section UniquePaths.
Import Download.

Lemma seen_spec (p : string) (seen : list string) :
  existsb (String.eqb p) seen = true <-> In p seen.
Proof.
  rewrite existsb_exists. split.
  - intros (x & Hx & E). apply String.eqb_eq in E. now subst.
  - intros H. exists p. split; [exact H | apply String.eqb_refl].
Qed.

Lemma unique_from_in (seen : list string) (paths : list (option string)) (p : string) :
  In p (unique_from seen paths) <-> In (Some p) paths /\ ~ In p seen.
Proof.
  revert seen; induction paths as [|[q|] rest IH]; intros seen; cbn [unique_from].
  - cbn. tauto.
  - destruct (existsb (String.eqb q) seen) eqn:Hq.
    + apply seen_spec in Hq. rewrite IH. cbn. split.
      * intros [H1 H2]. tauto.
      * intros [[[= ->]|H1] H2]; [tauto | tauto].
    + assert (Hn : ~ In q seen) by (rewrite <- seen_spec; congruence).
      cbn. rewrite IH. cbn. split.
      * intros [<-|[H1 H2]]; [tauto|]. split; [tauto|]. tauto.
      * intros [[[= ->]|H1] H2]; [now left|].
        destruct (string_dec q p) as [->|Hne]; [now left|]. right.
        split; [exact H1|]. intros [H|H]; [congruence | tauto].
  - rewrite IH. cbn. split.
    + intros [H1 H2]. tauto.
    + intros [[H|H1] H2]; [discriminate | tauto].
Qed.

Lemma unique_from_nodup (seen : list string) (paths : list (option string)) :
  NoDup (unique_from seen paths).
Proof.
  revert seen; induction paths as [|[q|] rest IH]; intros seen; cbn [unique_from].
  - constructor.
  - destruct (existsb (String.eqb q) seen); [apply IH|].
    constructor; [|apply IH]. rewrite unique_from_in. cbn. tauto.
  - apply IH.
Qed.

Lemma unique_from_skip (p : string) (s1 s2 : list string)
    (paths : list (option string)) :
  (forall x, In x s1 <-> In x s2 \/ x = p) ->
  unique_from s1 paths
  = filter (fun q => negb (String.eqb q p)) (unique_from s2 paths).
Proof.
  revert s1 s2; induction paths as [|[q|] rest IH]; intros s1 s2 Hs;
    cbn [unique_from]; [reflexivity| |now apply IH].
  destruct (String.eqb_spec q p) as [->|Hne].
  - assert (H1 : existsb (String.eqb p) s1 = true) by (apply seen_spec, Hs; now right).
    rewrite H1. destruct (existsb (String.eqb p) s2) eqn:H2; [now apply IH|].
    cbn [filter]. rewrite String.eqb_refl. cbn [negb].
    apply IH. intros x. rewrite Hs. cbn. intuition.
  - assert (H12 : existsb (String.eqb q) s1 = existsb (String.eqb q) s2).
    { apply eq_true_iff_eq. rewrite !seen_spec, Hs. intuition. }
    rewrite H12. destruct (existsb (String.eqb q) s2); [now apply IH|].
    cbn [filter]. apply String.eqb_neq in Hne. rewrite Hne. cbn [negb].
    f_equal. apply IH. intros x. cbn. rewrite Hs. intuition.
Qed.

Lemma unique_from_distinct (seen l : list string) :
  NoDup l -> (forall x, In x l -> ~ In x seen) ->
  unique_from seen (map Some l) = l.
Proof.
  revert seen; induction l as [|p l IH]; intros seen Hnd Hdis; [reflexivity|].
  cbn [map unique_from].
  assert (Hp : existsb (String.eqb p) seen = false).
  { apply not_true_is_false. rewrite seen_spec. apply Hdis. now left. }
  rewrite Hp. f_equal. apply NoDup_cons_iff in Hnd. destruct Hnd as [Hnp Hnd].
  apply IH; [exact Hnd|]. intros x Hx [<-|Hs]; [tauto|].
  apply (Hdis x); [now right | exact Hs].
Qed.

End UniquePaths.

(** [_unique_paths] drops the entries that are [None] and, of the paths
    met more than once, all but the first: the result has no repeat and
    holds the same paths as the argument, a path stays before the paths
    that came after it, and a list of distinct paths is returned as it
    is. *)
Theorem unique_paths_keeps_first (paths : list (option string)) :
  NoDup (Download._unique_paths paths)
  /\ (forall p, In p (Download._unique_paths paths) <-> In (Some p) paths)
  /\ Download._unique_paths (None :: paths) = Download._unique_paths paths
  /\ (forall p,
        Download._unique_paths (Some p :: paths)
        = p :: filter (fun q => negb (String.eqb q p)) (Download._unique_paths paths))
  /\ (forall l, NoDup l -> Download._unique_paths (map Some l) = l)
  /\ Download._unique_paths (map Some (Download._unique_paths paths))
     = Download._unique_paths paths.
Proof.
  unfold Download._unique_paths. split; [apply unique_from_nodup|].
  split; [intros p; rewrite unique_from_in; cbn; tauto|].
  split; [reflexivity|]. split; [|split].
  - intros p. cbn [Download.unique_from existsb]. f_equal.
    apply unique_from_skip. intros x. cbn. intuition.
  - intros l Hl. now apply unique_from_distinct.
  - apply unique_from_distinct; [apply unique_from_nodup | easy].
Qed.

(** ** The path that the downloader reports *)

Section ReportedPath.
Import Download.

Lemma info_nested_ind (P : info -> Prop) :
  (forall requested_downloads filename entries,
      match entries with Some items => Forall P items | None => True end ->
      P (Dict requested_downloads filename entries)) ->
  (forall items, Forall P items -> P (InfoList items)) ->
  P Other ->
  forall i, P i.
Proof.
  intros Hd Hl Ho. fix IH 1. intros [rd fn entries|items|].
  - apply Hd. destruct entries as [items|]; [|exact I].
    induction items as [|e rest IHr]; constructor; [apply IH | exact IHr].
  - apply Hl. induction items as [|e rest IHr]; constructor; [apply IH | exact IHr].
  - exact Ho.
Qed.

Lemma first_filepath_head (downloads : list (option string)) :
  first_filepath downloads = hd_error (truthy_paths downloads).
Proof.
  induction downloads as [|[p|] rest IH]; cbn; [reflexivity| |exact IH].
  destruct (PyStr.truthy p); [reflexivity | exact IH].
Qed.

Lemma hd_error_app {A} (a b : list A) :
  hd_error (a ++ b) = match hd_error a with Some x => Some x | None => hd_error b end.
Proof. now destruct a. Qed.

Lemma truthy_paths_nonempty (l : list (option string)) (p : string) :
  In p (truthy_paths l) -> p <> "".
Proof.
  unfold truthy_paths. rewrite in_flat_map. intros ([q|] & _ & H); [|easy].
  destruct q as [|c q]; cbn in H; [easy|]. destruct H as [<-|[]]. discriminate.
Qed.

End ReportedPath.

Section FirstReported.
Import Download.

Lemma nested_head (items : list info) :
  Forall (fun i => _extract_download_filepath i = hd_error (reported_paths i)) items ->
  (fix nested (items : list info) : option string :=
     match items with
     | [] => None
     | entry :: rest =>
         match _extract_download_filepath entry with
         | Some path => Some path
         | None => nested rest
         end
     end) items
  = hd_error
      ((fix all (items : list info) : list string :=
          match items with
          | [] => []
          | entry :: rest => (reported_paths entry ++ all rest)%list
          end) items).
Proof.
  induction 1 as [|e rest He _ IH]; [reflexivity|].
  rewrite hd_error_app, <- He.
  destruct (_extract_download_filepath e); [reflexivity | exact IH].
Qed.

Lemma all_nonempty (items : list info) (p : string) :
  Forall (fun i => In p (reported_paths i) -> p <> "") items ->
  In p ((fix all (items : list info) : list string :=
           match items with
           | [] => []
           | entry :: rest => (reported_paths entry ++ all rest)%list
           end) items) ->
  p <> "".
Proof.
  induction 1 as [|e rest He _ IH]; [easy|].
  rewrite in_app_iff. intros [H|H]; [now apply He | now apply IH].
Qed.

Lemma reported_paths_nonempty (i : info) (p : string) :
  In p (reported_paths i) -> p <> "".
Proof.
  induction i as [rd fn entries IH|items IH|] using info_nested_ind.
  - cbn [reported_paths]. rewrite !in_app_iff. intros [H|[H|H]].
    + now apply truthy_paths_nonempty in H.
    + now apply truthy_paths_nonempty in H.
    + destruct entries as [items|]; [|easy]. now apply (all_nonempty items).
  - cbn [reported_paths]. now apply all_nonempty.
  - easy.
Qed.

End FirstReported.

(** [_extract_download_filepath] returns the first file path that the
    information reports, in this order: the paths of the requested
    downloads, the file name, the paths of the entries, entry by entry;
    a path that is empty or missing is passed over.  It returns [None]
    exactly when the information reports no path, and never an empty
    path. *)
Theorem extract_is_first_reported (i : Download.info) :
  Download._extract_download_filepath i = hd_error (Download.reported_paths i)
  /\ (Download._extract_download_filepath i = None
      <-> Download.reported_paths i = [])
  /\ forall p, Download._extract_download_filepath i = Some p ->
               p <> "" /\ In p (Download.reported_paths i).
Proof.
  assert (H : Download._extract_download_filepath i
              = hd_error (Download.reported_paths i)).
  { induction i as [rd fn entries IH|items IH|] using info_nested_ind.
    - cbn [Download._extract_download_filepath Download.reported_paths].
      rewrite !hd_error_app.
      replace (match rd with Some downloads => Download.first_filepath downloads
                           | None => None end)
        with (hd_error (Download.truthy_paths
                          (match rd with Some d => d | None => [] end)))
        by (destruct rd; [now rewrite first_filepath_head | reflexivity]).
      destruct (hd_error (Download.truthy_paths _)); [reflexivity|].
      destruct fn as [[|c f]|]; cbn [PyStr.otruthy PyStr.truthy Download.truthy_paths
                                       flat_map app hd_error];
        try reflexivity;
        (destruct entries as [items|]; [now apply nested_head | reflexivity]).
    - cbn [Download._extract_download_filepath Download.reported_paths].
      now apply nested_head.
    - reflexivity. }
  split; [exact H|]. rewrite H. split.
  - now destruct (Download.reported_paths i).
  - intros p Hp. assert (Hin : In p (Download.reported_paths i)).
    { destruct (Download.reported_paths i); [discriminate|].
      injection Hp as ->. now left. }
    split; [now apply (reported_paths_nonempty i) | exact Hin].
Qed.

(** * Properties of [sanitize_filename] *)

Section Sanitize.
Import Utils.

Lemma remove_invalid_valid (s : string) : all_chars is_valid (remove_invalid s) = true.
Proof.
  induction s as [|c s IH]; [reflexivity|]. cbn [remove_invalid].
  destruct (is_valid c) eqn:Hc; [|exact IH]. cbn. now rewrite Hc.
Qed.

Lemma collapse_dots_chars (p : ascii -> bool) (b : bool) (s : string) :
  all_chars p s = true -> all_chars p (collapse_dots b s) = true.
Proof.
  revert b; induction s as [|c s IH]; intros b; [easy|]. cbn.
  intros H. apply andb_true_iff in H. destruct H as [Hc Hs].
  destruct (Ascii.eqb c "."); [destruct b|]; cbn; rewrite ?Hc; cbn; now apply IH.
Qed.

Lemma collapse_whitespace_chars (p : ascii -> bool) (b : bool) (s : string) :
  p " "%char = true ->
  all_chars p s = true -> all_chars p (collapse_whitespace b s) = true.
Proof.
  intros Hsp. revert b; induction s as [|c s IH]; intros b; [easy|]. cbn.
  intros H. apply andb_true_iff in H. destruct H as [Hc Hs].
  destruct (PyStr.isspace c); [destruct b|]; cbn; rewrite ?Hc, ?Hsp; cbn; now apply IH.
Qed.

Lemma lstrip_chars (p : ascii -> bool) (s : string) :
  all_chars p s = true -> all_chars p (PyStr.lstrip s) = true.
Proof.
  induction s as [|c s IH]; [easy|]. cbn [PyStr.lstrip].
  destruct (PyStr.isspace c); [|easy].
  cbn. intros H. apply andb_true_iff in H. now apply IH.
Qed.

Lemma rstrip_chars (p : ascii -> bool) (s : string) :
  all_chars p s = true -> all_chars p (PyStr.rstrip s) = true.
Proof.
  induction s as [|c s IH]; [easy|]. cbn [PyStr.rstrip all_chars].
  intros H. apply andb_true_iff in H. destruct H as [Hc Hs].
  specialize (IH Hs). destruct (PyStr.rstrip s) as [|d t].
  - destruct (PyStr.isspace c); cbn; now rewrite ?Hc.
  - change (p c && all_chars p (String d t) = true). now rewrite Hc, IH.
Qed.

Lemma all_chars_excludes (p : ascii -> bool) (x : ascii) (s : string) :
  all_chars p s = true -> p x = false -> PyStr.contains (String x "") s = false.
Proof.
  intros Hs Hx. induction s as [|c s IH]; [reflexivity|].
  cbn in Hs. apply andb_true_iff in Hs. destruct Hs as [Hc Hs].
  rewrite contains_char, (IH Hs), orb_false_r.
  apply Ascii.eqb_neq. intros ->. congruence.
Qed.

Lemma starts_with_collapse_dots (s : string) :
  starts_with "." (collapse_dots true s) = false.
Proof.
  induction s as [|c s IH]; [reflexivity|]. cbn.
  destruct (Ascii.eqb c ".") eqn:Hc; [exact IH | cbn; exact Hc].
Qed.

Lemma collapse_dots_no_adjacent (b : bool) (s : string) :
  no_adjacent "." (collapse_dots b s) = true.
Proof.
  revert b; induction s as [|c s IH]; intros b; [reflexivity|]. cbn [collapse_dots].
  destruct (Ascii.eqb c ".") eqn:Hc.
  - destruct b; [apply IH|]. cbn [no_adjacent].
    now rewrite starts_with_collapse_dots, andb_false_r, IH.
  - cbn [no_adjacent]. now rewrite Hc, IH.
Qed.

Lemma no_adjacent_tail (x c : ascii) (t : string) :
  no_adjacent x (String c t) = true -> no_adjacent x t = true.
Proof. cbn. intros H. now apply andb_true_iff in H. Qed.

Lemma no_adjacent_cons (x c : ascii) (t : string) :
  no_adjacent x t = true -> (Ascii.eqb c x = true -> starts_with x t = false) ->
  no_adjacent x (String c t) = true.
Proof.
  intros Ht Hc. cbn. rewrite Ht, andb_true_r.
  destruct (Ascii.eqb c x); [now rewrite Hc | reflexivity].
Qed.

Lemma no_adjacent_head (x c : ascii) (t : string) :
  no_adjacent x (String c t) = true -> Ascii.eqb c x = true -> starts_with x t = false.
Proof.
  cbn. intros H Hc. rewrite Hc in H. apply andb_true_iff in H.
  destruct (starts_with x t); [now destruct H | reflexivity].
Qed.

(** White space apart, [collapse_whitespace] keeps the first character. *)
Lemma starts_with_collapse_whitespace (x : ascii) (s : string) :
  PyStr.isspace x = false ->
  starts_with x (collapse_whitespace false s) = starts_with x s.
Proof.
  intros Hx. destruct s as [|c s]; [reflexivity|].
  cbn [collapse_whitespace starts_with].
  destruct (PyStr.isspace c) eqn:Hc; [|reflexivity]. cbn [starts_with].
  transitivity false.
  - apply Ascii.eqb_neq. intros <-. vm_compute in Hx. discriminate.
  - symmetry. apply Ascii.eqb_neq. intros ->. congruence.
Qed.

Lemma collapse_whitespace_keeps (x : ascii) (b : bool) (s : string) :
  PyStr.isspace x = false ->
  no_adjacent x s = true -> no_adjacent x (collapse_whitespace b s) = true.
Proof.
  intros Hx. revert b; induction s as [|c s IH]; intros b Hs; [reflexivity|].
  pose proof (no_adjacent_tail _ _ _ Hs) as Ht. cbn [collapse_whitespace].
  destruct (PyStr.isspace c) eqn:Hc.
  - destruct b; [now apply IH|]. apply no_adjacent_cons; [now apply IH|].
    intros E. apply Ascii.eqb_eq in E. subst x. discriminate.
  - apply no_adjacent_cons; [now apply IH|]. intros E.
    rewrite (starts_with_collapse_whitespace x s Hx).
    now apply (no_adjacent_head x c s).
Qed.

Lemma starts_with_after_run (s : string) :
  starts_with " " (collapse_whitespace true s) = false.
Proof.
  induction s as [|c s IH]; [reflexivity|]. cbn.
  destruct (PyStr.isspace c) eqn:Hc; [exact IH|]. cbn.
  apply Ascii.eqb_neq. intros ->. discriminate.
Qed.

Lemma collapse_whitespace_no_adjacent (b : bool) (s : string) :
  no_adjacent " " (collapse_whitespace b s) = true.
Proof.
  revert b; induction s as [|c s IH]; intros b; [reflexivity|]. cbn [collapse_whitespace].
  destruct (PyStr.isspace c) eqn:Hc.
  - destruct b; [apply IH|]. apply no_adjacent_cons; [apply IH|].
    intros _. apply starts_with_after_run.
  - apply no_adjacent_cons; [apply IH|]. intros E.
    apply Ascii.eqb_eq in E. subst c. discriminate.
Qed.

Lemma lstrip_no_adjacent (x : ascii) (s : string) :
  no_adjacent x s = true -> no_adjacent x (PyStr.lstrip s) = true.
Proof.
  induction s as [|c s IH]; [easy|]. intros H. cbn [PyStr.lstrip].
  destruct (PyStr.isspace c); [|exact H]. apply IH. now apply no_adjacent_tail in H.
Qed.

Lemma rstrip_head (s : string) (d : ascii) (u : string) :
  PyStr.rstrip s = String d u -> exists t, s = String d t.
Proof.
  destruct s as [|c s]; [discriminate|]. cbn.
  destruct (PyStr.rstrip s); [destruct (PyStr.isspace c)|];
    intros [= <- <-]; now eexists.
Qed.

Lemma rstrip_no_adjacent (x : ascii) (s : string) :
  no_adjacent x s = true -> no_adjacent x (PyStr.rstrip s) = true.
Proof.
  induction s as [|c s IH]; [easy|]. intros H.
  pose proof (no_adjacent_tail _ _ _ H) as Ht. specialize (IH Ht).
  cbn [PyStr.rstrip]. destruct (PyStr.rstrip s) as [|d u] eqn:Hr.
  - destruct (PyStr.isspace c); [reflexivity|].
    cbn [no_adjacent starts_with]. now rewrite andb_false_r.
  - apply no_adjacent_cons; [exact IH|]. intros E.
    destruct (rstrip_head s d u Hr) as [t ->].
    exact (no_adjacent_head x c (String d t) H E).
Qed.

(** [strip] leaves what it has stripped. *)
Lemma lstrip_starts (s : string) :
  match PyStr.lstrip s with
  | EmptyString => True
  | String c _ => PyStr.isspace c = false
  end.
Proof.
  induction s as [|c s IH]; [exact I|]. cbn.
  destruct (PyStr.isspace c) eqn:Hc; [exact IH | exact Hc].
Qed.

Lemma lstrip_fixed (s : string) :
  match s with EmptyString => True | String c _ => PyStr.isspace c = false end ->
  PyStr.lstrip s = s.
Proof. destruct s as [|c s]; [easy|]. cbn. now intros ->. Qed.

Lemma rstrip_idem (s : string) : PyStr.rstrip (PyStr.rstrip s) = PyStr.rstrip s.
Proof.
  induction s as [|c s IH]; [reflexivity|]. cbn [PyStr.rstrip].
  destruct (PyStr.rstrip s) as [|d u] eqn:Hr.
  - destruct (PyStr.isspace c) eqn:Hc; [reflexivity|]. cbn. now rewrite Hc.
  - cbn [PyStr.rstrip]. cbn [PyStr.rstrip] in IH. now rewrite IH.
Qed.

Lemma strip_idem (s : string) : PyStr.strip (PyStr.strip s) = PyStr.strip s.
Proof.
  unfold PyStr.strip. rewrite (lstrip_fixed (PyStr.rstrip (PyStr.lstrip s))).
  - apply rstrip_idem.
  - pose proof (lstrip_starts s) as H.
    destruct (PyStr.rstrip (PyStr.lstrip s)) as [|d u] eqn:Hr; [exact I|].
    destruct (rstrip_head _ d u Hr) as [t Ht]. now rewrite Ht in H.
Qed.

Lemma valid_space (c : ascii) :
  is_valid c = true -> PyStr.isspace c = true -> c = " "%char.
Proof.
  destruct c as [[] [] [] [] [] [] [] []]; vm_compute; intros H1 H2;
    try discriminate H1; try discriminate H2; reflexivity.
Qed.

End Sanitize.

Section SanitizeFixed.
Import Utils.

Lemma prefix_pair (x c : ascii) (t : string) :
  String.prefix (String x (String x "")) (String c t)
  = Ascii.eqb c x && starts_with x t.
Proof.
  cbn [String.prefix]. destruct (ascii_dec x c) as [<-|Hne].
  - rewrite Ascii.eqb_refl. destruct t as [|d t]; [reflexivity|].
    cbn [String.prefix starts_with andb]. destruct (ascii_dec x d) as [<-|Hd].
    + rewrite Ascii.eqb_refl. now destruct t.
    + symmetry. apply Ascii.eqb_neq. congruence.
  - replace (Ascii.eqb c x) with false; [reflexivity|].
    symmetry. apply Ascii.eqb_neq. congruence.
Qed.

Lemma no_adjacent_contains (x : ascii) (s : string) :
  no_adjacent x s = true <-> PyStr.contains (String x (String x "")) s = false.
Proof.
  induction s as [|c s IH]; [now split|].
  rewrite PyStrFacts.contains_unfold, prefix_pair. cbn [no_adjacent].
  rewrite andb_true_iff, orb_false_iff, IH, negb_true_iff. tauto.
Qed.

Lemma remove_invalid_fixed (s : string) :
  all_chars is_valid s = true -> remove_invalid s = s.
Proof.
  induction s as [|c s IH]; [reflexivity|]. cbn.
  intros H. apply andb_true_iff in H. destruct H as [-> Hs]. now rewrite IH.
Qed.

Lemma collapse_dots_fixed (b : bool) (s : string) :
  no_adjacent "." s = true -> (b = true -> starts_with "." s = false) ->
  collapse_dots b s = s.
Proof.
  revert b; induction s as [|c s IH]; intros b Hs Hb; [reflexivity|].
  pose proof (no_adjacent_tail _ _ _ Hs) as Ht. cbn [collapse_dots].
  destruct (Ascii.eqb c ".") eqn:Hc.
  - destruct b; [specialize (Hb eq_refl); cbn in Hb; congruence|].
    f_equal. apply IH; [exact Ht|]. intros _. now apply (no_adjacent_head "." c s).
  - f_equal. apply IH; [exact Ht | discriminate].
Qed.

Lemma collapse_whitespace_fixed (b : bool) (s : string) :
  all_chars is_valid s = true -> no_adjacent " " s = true ->
  (b = true -> starts_with " " s = false) ->
  collapse_whitespace b s = s.
Proof.
  revert b; induction s as [|c s IH]; intros b Hv Hs Hb; [reflexivity|].
  pose proof (no_adjacent_tail _ _ _ Hs) as Ht.
  cbn [all_chars] in Hv. apply andb_true_iff in Hv. destruct Hv as [Hc Hv].
  cbn [collapse_whitespace]. destruct (PyStr.isspace c) eqn:Hsp.
  - pose proof (valid_space c Hc Hsp) as ->.
    destruct b; [specialize (Hb eq_refl); cbn in Hb; discriminate|].
    f_equal. apply IH; [exact Hv | exact Ht|]. intros _.
    now apply (no_adjacent_head " " " " s).
  - f_equal. apply IH; [exact Hv | exact Ht | discriminate].
Qed.

End SanitizeFixed.

(** The name that [sanitize_filename] returns is not empty unless the
    default is.  It is the default, or else it is made of word
    characters, hyphens, dots and spaces only, so that it holds no path
    separator; it has no two dots and no two spaces in a row, and no
    white space at either end. *)
Theorem sanitize_filename_is_safe (normalize : string -> string)
    (name default : string) :
  let r := Utils.sanitize_filename normalize name default in
  (r = "" -> default = "")
  /\ (r = default
      \/ (r <> ""
          /\ Utils.all_chars Utils.is_valid r = true
          /\ PyStr.contains ".." r = false
          /\ PyStr.contains "  " r = false
          /\ PyStr.contains "/" r = false
          /\ PyStr.contains "\" r = false
          /\ PyStr.strip r = r)).
Proof.
  intros r. subst r. unfold Utils.sanitize_filename.
  destruct (PyStr.truthy name); cbn [negb]; [|split; [easy | now left]].
  set (d := Utils.collapse_dots false (Utils.remove_invalid (normalize name))).
  set (c := Utils.collapse_whitespace false d).
  destruct (PyStr.strip c) as [|a t] eqn:Hs; cbn [PyStr.truthy];
    [split; [easy | now left]|].
  split; [discriminate|]. right. rewrite <- Hs.
  assert (Hv : Utils.all_chars Utils.is_valid (PyStr.strip c) = true).
  { unfold PyStr.strip. apply rstrip_chars, lstrip_chars.
    apply collapse_whitespace_chars; [reflexivity|].
    apply collapse_dots_chars, remove_invalid_valid. }
  split; [rewrite Hs; discriminate|]. split; [exact Hv|].
  split; [|split; [|split; [|split]]].
  - apply (no_adjacent_contains "."). unfold PyStr.strip.
    apply rstrip_no_adjacent, lstrip_no_adjacent.
    apply collapse_whitespace_keeps; [reflexivity|].
    apply collapse_dots_no_adjacent.
  - apply (no_adjacent_contains " "). unfold PyStr.strip.
    apply rstrip_no_adjacent, lstrip_no_adjacent.
    apply collapse_whitespace_no_adjacent.
  - now apply (all_chars_excludes Utils.is_valid).
  - now apply (all_chars_excludes Utils.is_valid).
  - apply strip_idem.
Qed.

(** A name that [sanitize_filename] would let through as it is, is
    returned as it is: when a name is not empty, is made of word
    characters, hyphens, dots and spaces, has no two dots and no two
    spaces in a row and no white space at either end, and the
    normalisation leaves it alone, [sanitize_filename] returns it. *)
Theorem sanitize_filename_fixed (normalize : string -> string)
    (name default : string) :
  name <> "" ->
  normalize name = name ->
  Utils.all_chars Utils.is_valid name = true ->
  PyStr.contains ".." name = false ->
  PyStr.contains "  " name = false ->
  PyStr.strip name = name ->
  Utils.sanitize_filename normalize name default = name.
Proof.
  intros Hne Hn Hv Hd Hs Ht. unfold Utils.sanitize_filename.
  destruct name as [|a t]; [now elim Hne|]. cbn [PyStr.truthy negb].
  rewrite Hn, (remove_invalid_fixed _ Hv).
  rewrite collapse_dots_fixed;
    [|now apply (no_adjacent_contains ".") | discriminate].
  rewrite collapse_whitespace_fixed;
    [|exact Hv | now apply (no_adjacent_contains " ") | discriminate].
  now rewrite Ht.
Qed.

Lemma sanitize_filename_fixed_witness :
  Utils.sanitize_filename (fun s => s) "My Beat - Part 2.final" "audio"
  = "My Beat - Part 2.final".
Proof.
  apply sanitize_filename_fixed; try reflexivity. discriminate.
Defined.

(** * Properties of [_resolve_color] *)

Lemma find_app_none {A} (p : A -> bool) (l1 l2 : list A) :
  Forall (fun a => p a = false) l1 -> find p (l1 ++ l2) = find p l2.
Proof.
  induction 1 as [|a l Ha _ IH]; [reflexivity|]. cbn. now rewrite Ha.
Qed.

(** [_resolve_color] never returns the empty string nor ["transparent"]:
    it returns the single value, or the last item of the tuple, that is
    neither, and ["#1a1a1a"] when there is none. *)
Theorem resolve_color_is_usable (value : App.color_value) :
  let r := App._resolve_color value in
  r <> "" /\ r <> "transparent"
  /\ (forall v, value = App.Single v -> App.usable v = true -> r = v)
  /\ (forall v, value = App.Single v -> App.usable v = false -> r = "#1a1a1a")
  /\ (forall before item after,
        value = App.Tuple (before ++ item :: after) ->
        App.usable item = true ->
        Forall (fun i => App.usable i = false) after ->
        r = item)
  /\ (forall items,
        value = App.Tuple items ->
        Forall (fun i => App.usable i = false) items ->
        r = "#1a1a1a").
Proof.
  intros r. subst r.
  assert (Husable : forall v, App.usable v = true -> v <> "" /\ v <> "transparent").
  { intros v H. unfold App.usable in H. apply andb_true_iff in H.
    destruct H as [H1 H2]. split.
    - intros ->. discriminate.
    - intros ->. discriminate. }
  split; [|split; [|split; [|split; [|split]]]].
  1,2: destruct value as [v|items]; cbn [App._resolve_color].
  - destruct (String.eqb_spec v "transparent") as [->|Hne]; [discriminate|].
    cbn [orb]. destruct v; [discriminate | discriminate].
  - destruct (find App.usable (rev items)) as [item|] eqn:Hf; [|discriminate].
    apply find_some in Hf. now apply Husable.
  - destruct (String.eqb_spec v "transparent") as [->|Hne]; [discriminate|].
    cbn [orb]. destruct v; [discriminate | exact Hne].
  - destruct (find App.usable (rev items)) as [item|] eqn:Hf; [|discriminate].
    apply find_some in Hf. now apply Husable.
  - intros v -> H. cbn [App._resolve_color]. unfold App.usable in H.
    apply andb_true_iff in H. destruct H as [H1 H2].
    apply negb_true_iff in H2. now rewrite H2, H1.
  - intros v -> H. cbn [App._resolve_color]. unfold App.usable in H.
    destruct (String.eqb v "transparent"); [reflexivity|].
    rewrite andb_true_r in H. now rewrite H.
  - intros before item after -> Hi Ha. cbn [App._resolve_color].
    rewrite rev_app_distr. cbn [rev]. rewrite <- app_assoc.
    rewrite find_app_none.
    + cbn. now rewrite Hi.
    + apply Forall_rev. exact Ha.
  - intros items -> Ha. cbn [App._resolve_color].
    rewrite <- (app_nil_r (rev items)), find_app_none; [reflexivity|].
    apply Forall_rev. exact Ha.
Qed.

(** * Properties of the endpoints of [service.py] *)

Section EndpointFacts.
Import Service.

Context (config : Config) {sdk : Cryptolens}.

Lemma licensed_cases {A} (now_active now_reason : datetime) (k : endpoint A)
    (self : LicenseManager) :
  licensed now_active now_reason k self
  = if _is_active_unlocked now_active self then k self
    else (HTTPException 403 (_inactive_reason_unlocked now_reason self), self).
Proof.
  unfold licensed, is_active, inactive_reason, bind, get, ret.
  now destruct (_is_active_unlocked now_active self).
Qed.

Lemma guarded_cases {A B} (c : M A) (failure : string) (k : A -> endpoint B)
    (self : LicenseManager) :
  guarded c failure k self
  = match c self with
    | (Returned a, self') => k a self'
    | (Raised e, self') =>
        (HTTPException (match e with LicenseError _ => 400 | OtherException => 500 end)
           (match e with LicenseError msg => msg | OtherException => failure end),
         self')
    end.
Proof. unfold guarded. now destruct (c self) as [[a|[msg|]] s]. Qed.

End EndpointFacts.

(** The two endpoints that do the work answer 403, with the reason of
    inactivity as detail, whenever the license is not active, whatever
    the request and whatever the download, the analysis or the file
    system would give; when they answer anything else the license was
    active.  Neither changes the manager. *)
Theorem endpoints_require_license (config : Config) {sdk : Cryptolens}
    (now_active now_reason : datetime) (self : LicenseManager)
    (url : string) (work : Service.worker_result)
    (source_exists : bool) (name stem suffix : string)
    (exists_ : string -> bool) (fuel : nat) (directory_ok copied : bool)
    (os_error str_404 : string) (resolve : string -> string) :
  let analyze := Service.analyze_endpoint url now_active now_reason work self in
  let save :=
    Service.save_endpoint now_active now_reason source_exists name stem suffix
      exists_ fuel directory_ok copied os_error str_404 resolve self in
  let reason := _inactive_reason_unlocked now_reason self in
  (_is_active_unlocked now_active self = false ->
   analyze = (Service.HTTPException 403 reason, self)
   /\ save = Some (Service.HTTPException 403 reason, self))
  /\ (fst analyze <> Service.HTTPException 403 reason ->
      _is_active_unlocked now_active self = true)
  /\ snd analyze = self
  /\ (forall answer self', save = Some (answer, self') -> self' = self).
Proof.
  cbv zeta. unfold Service.analyze_endpoint, Service.save_endpoint.
  rewrite licensed_cases.
  unfold is_active, inactive_reason, bind, get, ret.
  destruct (_is_active_unlocked now_active self).
  - split; [discriminate|]. split; [reflexivity|]. split.
    + now destruct work.
    + intros answer self'.
      destruct (Service.save_body _ _ _ _ _ _ _ _ _ _) as [[[|text]|response]|];
        intros [= _ <-]; reflexivity.
  - split; [now split|]. split; [intros H; now elim H|]. split; [reflexivity|].
    intros answer self' [= _ <-]. reflexivity.
Qed.

Lemma endpoints_require_license_witness :
  let self := Sample.revoked in
  Service.analyze_endpoint (sdk := Sample.sdk) "https://youtu.be/x"
    Sample.later Sample.later (Service.RaisedDownloadError "no network") self
  = (Service.HTTPException 403 msg_blocked, self).
Proof.
  intros self.
  apply (endpoints_require_license Sample.config (sdk := Sample.sdk)
           Sample.later Sample.later self "https://youtu.be/x"
           (Service.RaisedDownloadError "no network")
           true "" "" "" (fun _ => false) 0 true true "" "" (fun s => s)).
  reflexivity.
Defined.

(** [save_endpoint] never answers 404.  Its own [HTTPException(404)] for
    a source file that does not exist is raised inside the [try] whose
    handler catches every exception, and leaves as a 500: with a license
    that is active, a missing source file gives status 500 and the detail
    ["Failed to save file: "] followed by the text of that exception, and
    every error that the endpoint answers has status 403 or 500. *)
Theorem save_never_answers_404 (config : Config) {sdk : Cryptolens}
    (now_active now_reason : datetime) (self : LicenseManager)
    (source_exists : bool) (name stem suffix : string)
    (exists_ : string -> bool) (fuel : nat) (directory_ok copied : bool)
    (os_error str_404 : string) (resolve : string -> string) :
  let save :=
    Service.save_endpoint (sdk := sdk) now_active now_reason source_exists name stem
      suffix exists_ fuel directory_ok copied os_error str_404 resolve self in
  (forall code detail self',
      save = Some (Service.HTTPException code detail, self') ->
      code = 403 \/ code = 500)
  /\ (_is_active_unlocked now_active self = true -> source_exists = false ->
      save = Some (Service.HTTPException 500 ("Failed to save file: " ++ str_404),
                   self)).
Proof.
  cbv zeta. unfold Service.save_endpoint, is_active, inactive_reason, bind, get, ret.
  destruct (_is_active_unlocked now_active self).
  - split.
    + intros code detail self'.
      destruct (Service.save_body _ _ _ _ _ _ _ _ _ _) as [[[|text]|response]|];
        intros [= <- _ _]; now right.
    + intros _ ->. reflexivity.
  - split; [|discriminate]. intros code detail self' [= <- _ _]. now left.
Qed.

Lemma save_never_answers_404_witness :
  Service.save_endpoint (sdk := Sample.sdk) Sample.later Sample.later
    false "beat.mp3" "beat" ".mp3" (fun _ => false) 1 true true ""
    "404: Source file not found." (fun s => s) Sample.activated
  = Some (Service.HTTPException 500
            "Failed to save file: 404: Source file not found.", Sample.activated).
Proof.
  apply (save_never_answers_404 Sample.config (sdk := Sample.sdk)); reflexivity.
Defined.

(** When [save_endpoint] saves, it does not write over a file of the
    save directory: with an active license, an existing source, and a
    directory of finitely many files, it answers with a destination that
    did not exist, the name of the source when that is free and otherwise
    [stem_k suffix] for the least [k >= 1] that is free. *)
Theorem save_keeps_existing_files (config : Config) {sdk : Cryptolens}
    (now_active now_reason : datetime) (self : LicenseManager)
    (name stem suffix : string) (exists_ : string -> bool) (files : list string)
    (fuel : nat) (os_error str_404 : string) (resolve : string -> string) :
  _is_active_unlocked now_active self = true ->
  name = stem ++ suffix ->
  (forall n, exists_ n = true -> In n files) ->
  (List.length files < fuel)%nat ->
  exists destination,
    Service.save_endpoint (sdk := sdk) now_active now_reason true name stem suffix
      exists_ fuel true true os_error str_404 resolve self
    = Some (Service.Responded
              (Service.mkSave true (Some (resolve destination))
                 ("Saved to " ++ resolve destination)), self)
    /\ exists_ destination = false
    /\ (exists_ name = false -> destination = name)
    /\ (exists_ name = true ->
        exists k,
          (1 <= k)%nat /\ destination = Download.numbered stem suffix k
          /\ forall j, (1 <= j < k)%nat ->
                       exists_ (Download.numbered stem suffix j) = true).
Proof.
  intros Hactive -> Hfin Hfuel.
  unfold Service.save_endpoint, is_active, inactive_reason, bind, get, ret.
  rewrite Hactive. unfold Service.save_body. cbn [negb].
  destruct (exists_ (stem ++ suffix)) eqn:Hex.
  - destruct (unique_loop_ends exists_ stem suffix files Hfin (stem ++ suffix)
                (numbered_not_plain stem suffix) fuel 1 (stem ++ suffix) [])
      as (dest & Hrun & Hfree & Hname).
    + constructor; [easy | constructor].
    + easy.
    + intros x [<-|[]]. now left.
    + cbn. lia.
    + exists dest. rewrite Hrun. split; [reflexivity|]. split; [exact Hfree|].
      split; [discriminate|]. intros _.
      destruct Hname as [->|(_ & k & Hk & -> & Hall)]; [congruence|]. now exists k.
  - exists (stem ++ suffix). split; [reflexivity|]. split; [exact Hex|].
    split; [reflexivity | discriminate].
Qed.

Lemma save_keeps_existing_files_witness :
  let files := ["beat.mp3"; "beat_1.mp3"] in
  let exists_ n := existsb (String.eqb n) files in
  exists destination,
    Service.save_endpoint (sdk := Sample.sdk) Sample.later Sample.later true
      "beat.mp3" "beat" ".mp3" exists_ 3 true true "" "" (fun s => s)
      Sample.activated
    = Some (Service.Responded
              (Service.mkSave true (Some destination) ("Saved to " ++ destination)),
            Sample.activated)
    /\ exists_ destination = false.
Proof.
  intros files exists_.
  destruct (save_keeps_existing_files Sample.config (sdk := Sample.sdk)
              Sample.later Sample.later Sample.activated "beat.mp3" "beat" ".mp3"
              exists_ files 3 "" "" (fun s => s) eq_refl eq_refl)
    as (destination & Hrun & Hfree & _).
  - intros n H. apply existsb_exists in H. destruct H as (x & Hx & E).
    apply String.eqb_eq in E. now subst.
  - cbn. lia.
  - now exists destination.
Defined.

(** What [status()] gives an endpoint for the manager that the method
    has left. *)
Lemma status_body_cases (config : Config) {sdk : Cryptolens} (attributes : bool)
    (now_policy now_active now_reason : datetime) (self : LicenseManager) :
  Service.status_body config attributes now_policy now_active now_reason self
  = (if Service.customer_read_raises attributes self
     then Service.HTTPException 500 "Internal Server Error"
     else Service.Responded (status_dict config now_active now_reason self),
     self).
Proof.
  unfold Service.status_body, Service.status_call, status.
  cbv [bind get ret raise_if raise].
  now destruct (Service.customer_read_raises attributes self).
Qed.

(** The endpoints of the license answer 400 exactly when the method of
    the manager raises a [LicenseError]: the detail is its message and
    the manager is as before.  [/license/deactivate] answers 500, with its
    text, when [exists()] raises in [deactivate()]: the manager has then
    lost its record and its key, and the file is still there.  When
    [activate()] or [refresh()] returns, the endpoint calls [status()]
    outside its [try], on the manager after the commit: the answer is the
    status, or the 500 of the framework when [status()] raises on the
    customer of the record; the commit stays either way. *)
Theorem license_endpoints_answers (config : Config) {sdk : Cryptolens}
    (license_key : string) (Key_activate : Authority)
    (now_expiry now_commit : datetime) (w : write_outcome) (r : removal)
    (attributes : bool)
    (now_policy now_active now_reason : datetime) (self : LicenseManager) :
  let reported {B} (body : Status.t -> B) (self' : LicenseManager) : Service.http B :=
    if Service.customer_read_raises attributes self'
    then Service.HTTPException 500 "Internal Server Error"
    else Service.Responded (body (status_dict config now_active now_reason self')) in
  let activated :=
    Service.license_activate config license_key Key_activate now_expiry now_commit w
      attributes now_policy now_active now_reason self in
  let refreshed_ :=
    Service.license_refresh config Key_activate now_commit w
      attributes now_policy now_active now_reason self in
  let deactivated := Service.license_deactivate r self in
  ((exists msg,
      activate config (Some license_key) Key_activate now_expiry now_commit w self
      = (Raised (LicenseError msg), self)
      /\ activated = (Service.HTTPException 400 msg, self))
   \/ (exists self',
         activate config (Some license_key) Key_activate now_expiry now_commit w self
         = (Returned tt, self')
         /\ activated
            = (reported (fun d => (d, "License activated successfully.")) self', self')))
  /\ ((exists msg,
         refresh config Key_activate now_commit w self
         = (Raised (LicenseError msg), self)
         /\ refreshed_ = (Service.HTTPException 400 msg, self))
      \/ (exists self',
            refresh config Key_activate now_commit w self = (Returned tt, self')
            /\ refreshed_ = (reported (fun d => d) self', self')))
  /\ ((PyStr.otruthy (_license_string self) = false
       /\ deactivated = (Service.HTTPException 400 msg_not_activated, self))
      \/ (PyStr.otruthy (_license_string self) = true /\ r = ExistsRaises
          /\ deactivated
             = (Service.HTTPException 500
                  "Failed to deactivate license. Please try again.",
                mkManager (_machine_code self) None None None (storage_file self)))
      \/ (exists unlinked,
            PyStr.otruthy (_license_string self) = true /\ r = ExistsAnswers unlinked
            /\ deactivated
               = (Service.Responded "License deactivated successfully.",
                  mkManager (_machine_code self) None None None
                    (if unlinked then None else storage_file self)))).
Proof.
  cbv zeta.
  unfold Service.license_activate, Service.license_refresh, Service.license_deactivate.
  rewrite !guarded_cases. split; [|split].
  - destruct (activate_result config (Some license_key) Key_activate now_expiry
                now_commit w self) as [(msg & H)|(lic & _ & _ & _ & H)]; rewrite H.
    + left. now exists msg.
    + right. eexists. split; [reflexivity|].
      rewrite status_body_cases.
      now destruct (Service.customer_read_raises attributes _).
  - destruct (refresh_result config Key_activate now_commit w self)
      as [(msg & H)|[(lic & _ & H)|(existing & _ & _ & H)]]; rewrite H.
    + left. now exists msg.
    + right. eexists. split; [reflexivity|]. now rewrite status_body_cases.
    + right. eexists. split; [reflexivity|]. now rewrite status_body_cases.
  - destruct r as [|unlinked].
    + destruct (PyStr.otruthy (_license_string self)) eqn:Hk.
      * rewrite (deactivate_fs_raises self Hk). right; left. now repeat split.
      * unfold deactivate_fs. cbv [bind get raise_if raise ret modify].
        rewrite Hk. cbn [negb]. left. now split.
    + rewrite deactivate_fs_answers.
      destruct (deactivate_result unlinked self) as [[H Hk]|[H Hk]]; rewrite H.
      * left. now split.
      * right; right. now exists unlinked.
Qed.

(** On the sample: the key is activated and the record has a customer.
    When the customer has not the attributes, [/license/activate] answers
    500 and the license is committed and active all the same. *)
Lemma activate_endpoint_without_attributes :
  let answer :=
    Service.license_activate Sample.config (sdk := Sample.sdk) "ABCD-1234-EFGH-5678"
      (Sample.answers (Some Sample.valid, None)) Sample.noon Sample.noon Written
      false Sample.noon Sample.noon Sample.noon Sample.fresh in
  answer = (Service.HTTPException 500 "Internal Server Error", Sample.activated)
  /\ _is_active_unlocked (sdk := Sample.sdk) Sample.noon (snd answer) = true.
Proof. split; reflexivity. Qed.

(** * The manager after a restart *)

Lemma loaded_record_refreshes_at_once_witness :
  let m := __init__ Sample.config (sdk := Sample.storing_sdk) "machine-1"
             (Some "signed response") true Sample.noon in
  _license m = Some Sample.valid
  /\ _should_refresh Sample.later m = true.
Proof.
  intros m. split; [reflexivity|].
  apply (loaded_record_refreshes_at_once Sample.config (sdk := Sample.storing_sdk)
           "machine-1" (Some "signed response") true Sample.noon Sample.later
           Sample.valid).
  reflexivity.
Defined.

Lemma activate_returns_configured (config : Config) {sdk : Cryptolens}
    (license_key : option string) (Key_activate : Authority)
    (now_expiry now_commit : datetime) (w : write_outcome)
    (self self' : LicenseManager) :
  activate config license_key Key_activate now_expiry now_commit w self
  = (Returned tt, self') ->
  exists rsa, LICENSE_RSA_PUBLIC_KEY config = Some rsa /\ rsa <> "".
Proof.
  intros H.
  destruct (string_dec (sent_key license_key) "") as [Hk|Hk].
  { rewrite activate_empty_key in H; [discriminate | exact Hk]. }
  destruct (PyStr.otruthy (LICENSE_ACCESS_TOKEN config)) eqn:Ht.
  2:{ rewrite activate_no_token in H; [discriminate | exact Hk | exact Ht]. }
  destruct (PyStr.otruthy (LICENSE_RSA_PUBLIC_KEY config)) eqn:Hr.
  2:{ rewrite activate_no_rsa_key in H; [discriminate | exact Hk | exact Ht | exact Hr]. }
  destruct (LICENSE_RSA_PUBLIC_KEY config) as [rsa|]; [|discriminate].
  exists rsa. split; [reflexivity|]. intros ->. discriminate.
Qed.


